(** * tagrtol: a scanner for dangling third-party references

    A shallow embedding of [tagrtol.go]: the per-service probers, the
    dispatcher [detectService], link extraction, the worker loop and the
    scheduling done by [main], with the properties of the probing pipeline
    proved over it.

    Go strings are byte sequences, modelled by [string] (a list of
    8-bit characters).  Go's [int] status code is modelled by [Z].  The Go
    libraries the program calls ([strings], [fmt], [net/url], [net/http],
    [golang.org/x/net/html]) are modelled by the definitions of the modules
    below or taken as variables of the section [Scanner]. *)

From Stdlib Require Import Bool List String Ascii ZArith Lia Permutation.
From Stdlib Require Import DecimalString DecimalPos DecimalZ.
Import ListNotations.
Local Open Scope string_scope.
Local Open Scope list_scope.

(** ** Package [strings] *)

Module strings.

(** [strings.HasPrefix(s, prefix)]. *)
Fixpoint HasPrefix (s prefix : string) : bool :=
  match prefix, s with
  | EmptyString, _ => true
  | String _ _, EmptyString => false
  | String p prefix', String c s' => Ascii.eqb c p && HasPrefix s' prefix'
  end.

(** [strings.Contains(s, substr)]: [substr] occurs at some offset of [s]. *)
Fixpoint Contains (s substr : string) : bool :=
  HasPrefix s substr ||
  match s with
  | EmptyString => false
  | String _ s' => Contains s' substr
  end.

(** Membership of a byte in a cutset; the cutsets of this program are ASCII,
    where bytes and code points coincide. *)
Fixpoint inCutset (c : ascii) (cutset : string) : bool :=
  match cutset with
  | EmptyString => false
  | String d cutset' => Ascii.eqb c d || inCutset c cutset'
  end.

(** [strings.TrimLeft(s, cutset)]. *)
Fixpoint TrimLeft (s cutset : string) : string :=
  match s with
  | EmptyString => EmptyString
  | String c s' => if inCutset c cutset then TrimLeft s' cutset else s
  end.

(** [strings.TrimRight(s, cutset)]. *)
Fixpoint TrimRight (s cutset : string) : string :=
  match s with
  | EmptyString => EmptyString
  | String c s' =>
      match TrimRight s' cutset with
      | EmptyString => if inCutset c cutset then EmptyString else String c EmptyString
      | t => String c t
      end
  end.

(** [strings.Trim(s, cutset)]: leading and trailing bytes of [cutset] removed. *)
Definition Trim (s cutset : string) : string :=
  TrimRight (TrimLeft s cutset) cutset.

(** The scan of [strings.Split(s, sep)] for a non-empty [sep]: [cur] is the
    piece being read and [skip] counts the bytes of a separator still to
    pass over. *)
Fixpoint splitFrom (sep : string) (skip : nat) (cur s : string) : list string :=
  match s with
  | EmptyString => [cur]
  | String c s' =>
      match skip with
      | S k => splitFrom sep k cur s'
      | O =>
          if HasPrefix s sep
          then cur :: splitFrom sep (String.length sep - 1) EmptyString s'
          else splitFrom sep 0 (cur ++ String c EmptyString) s'
      end
  end.

(** [strings.Split(s, sep)] for a non-empty separator: the pieces of [s]
    between the occurrences of [sep]; one piece, [s] itself, when [sep] does
    not occur.  (With the empty separator Go explodes [s] into its UTF-8
    sequences, which this program never asks for; the model then yields
    [[s]].) *)
Definition Split (s sep : string) : list string :=
  match sep with
  | EmptyString => [s]
  | _ => splitFrom sep 0 EmptyString s
  end.

(** [strings.Cut(s, sep)]: the text before and after the first [sep], and
    whether [sep] was found. *)
Fixpoint Cut (s sep : string) : string * string * bool :=
  if HasPrefix s sep
  then (EmptyString, String.substring (String.length sep) (String.length s) s, true)
  else
    match s with
    | EmptyString => (EmptyString, EmptyString, false)
    | String c s' => let '(before, after, found) := Cut s' sep in
                     (String c before, after, found)
    end.

(** [strings.HasSuffix(s, suffix)]. *)
Fixpoint HasSuffix (s suffix : string) : bool :=
  String.eqb s suffix ||
  match s with
  | EmptyString => false
  | String _ s' => HasSuffix s' suffix
  end.

(** [strings.Index(s, substr)]: the offset of the first occurrence, [None]
    for Go's -1. *)
Fixpoint Index (s substr : string) : option nat :=
  if HasPrefix s substr then Some 0
  else
    match s with
    | EmptyString => None
    | String _ s' => option_map S (Index s' substr)
    end.

(** [strings.LastIndex(s, substr)]: the offset of the last occurrence. *)
Fixpoint LastIndex (s substr : string) : option nat :=
  match s with
  | EmptyString => if HasPrefix s substr then Some 0 else None
  | String _ s' =>
      match LastIndex s' substr with
      | Some i => Some (S i)
      | None => if HasPrefix s substr then Some 0 else None
      end
  end.

(** [strings.Count(s, substr)] for a one-byte [substr]. *)
Fixpoint CountByte (s : string) (b : ascii) : nat :=
  match s with
  | EmptyString => 0
  | String c s' => (if Ascii.eqb c b then 1 else 0) + CountByte s' b
  end.

(** The slices [s[:i]] and [s[i:]]. *)
Definition upto (i : nat) (s : string) : string := String.substring 0 i s.
Definition from (i : nat) (s : string) : string :=
  String.substring i (String.length s - i) s.

(** [strings.ToLower] on ASCII text. *)
Definition lowerByte (c : ascii) : ascii :=
  let n := nat_of_ascii c in
  if (65 <=? n)%nat && (n <=? 90)%nat then ascii_of_nat (n + 32) else c.

Fixpoint ToLower (s : string) : string :=
  match s with
  | EmptyString => EmptyString
  | String c s' => String (lowerByte c) (ToLower s')
  end.


End strings.

(** ** Package [net/url]

    A reference model of [url.Parse] as Go 1.21 implements it, used to run
    the scanner on concrete links.  The properties of section [Scanner]
    do not depend on it: there the parser is a field of [Library].  [RawPath] and
    [RawFragment], which only steer how a URL is printed, are left out. *)

Module url.

Record Userinfo := { username : string; password : string; passwordSet : bool }.

Record URL := {
  Scheme : string;
  Opaque : string;
  User : option Userinfo;
  Host : string;
  Path : string;
  OmitHost : bool;
  ForceQuery : bool;
  RawQuery : string;
  Fragment : string
}.

Definition empty : URL :=
  {| Scheme := ""; Opaque := ""; User := None; Host := ""; Path := "";
     OmitHost := false; ForceQuery := false; RawQuery := ""; Fragment := "" |}.

(** [u.IsAbs()]. *)
Definition IsAbs (u : URL) : bool := negb (String.eqb (Scheme u) "").

Inductive encoding := encodePath | encodeUserPassword | encodeHost | encodeZone | encodeFragment.

Definition code (c : ascii) : nat := nat_of_ascii c.
Definition isAlpha (c : ascii) : bool :=
  ((97 <=? code c) && (code c <=? 122) || (65 <=? code c) && (code c <=? 90))%nat.
Definition isDigit (c : ascii) : bool := ((48 <=? code c) && (code c <=? 57))%nat.
Definition ishex (c : ascii) : bool :=
  (isDigit c || (97 <=? code c) && (code c <=? 102) || (65 <=? code c) && (code c <=? 70))%nat.
Definition unhex (c : ascii) : nat :=
  if isDigit c then code c - 48
  else if ((97 <=? code c) && (code c <=? 102))%nat then code c - 97 + 10
  else if ((65 <=? code c) && (code c <=? 70))%nat then code c - 65 + 10
  else 0.

(** [stringContainsCTLByte]: a byte below 0x20 or 0x7f. *)
Fixpoint stringContainsCTLByte (s : string) : bool :=
  match s with
  | EmptyString => false
  | String c s' => (code c <? 32)%nat || (code c =? 127)%nat || stringContainsCTLByte s'
  end.

(** [shouldEscape(c, encodeHost)]. *)
Definition shouldEscapeHost (c : ascii) : bool :=
  if isAlpha c || isDigit c then false
  else if strings.inCutset c "!$&'()*+,;=:[]<>" || (code c =? 34)%nat then false
  else if strings.inCutset c "-_.~" then false
  else true.

(** [unescape(s, mode)]: the percent-escapes of [s] decoded; [None] is Go's
    error (a malformed escape, or a byte a host may not hold). *)
Fixpoint unescape (mode : encoding) (s : string) : option string :=
  match s with
  | EmptyString => Some EmptyString
  | String c rest =>
      if Ascii.eqb c "%" then
        match rest with
        | String h1 (String h2 rest') =>
            if negb (ishex h1 && ishex h2) then None
            else
              let v := ascii_of_nat (unhex h1 * 16 + unhex h2) in
              let is25 := Ascii.eqb h1 "2" && Ascii.eqb h2 "5" in
              let refused :=
                match mode with
                | encodeHost => (unhex h1 <? 8)%nat && negb is25
                | encodeZone => negb is25 && negb (Ascii.eqb v " ") && shouldEscapeHost v
                | _ => false
                end in
              if refused then None else option_map (String v) (unescape mode rest')
        | _ => None
        end
      else
        let refused :=
          match mode with
          | encodeHost | encodeZone => (code c <? 128)%nat && shouldEscapeHost c
          | _ => false
          end in
        if refused then None else option_map (String c) (unescape mode rest)
  end.

(** [getScheme]: the scheme and what follows it; [None] is the error
    "missing protocol scheme". *)
Fixpoint getSchemeFrom (rawURL : string) (i : nat) (s : string) : option (string * string) :=
  match s with
  | EmptyString => Some (EmptyString, rawURL)
  | String c s' =>
      if isAlpha c then getSchemeFrom rawURL (S i) s'
      else if isDigit c || strings.inCutset c "+-." then
        match i with O => Some (EmptyString, rawURL) | _ => getSchemeFrom rawURL (S i) s' end
      else if Ascii.eqb c ":" then
        match i with O => None | _ => Some (strings.upto i rawURL, s') end
      else Some (EmptyString, rawURL)
  end.

Definition getScheme (rawURL : string) : option (string * string) :=
  getSchemeFrom rawURL 0 rawURL.

(** [validOptionalPort]: empty, or a colon and digits. *)
Fixpoint allDigits (s : string) : bool :=
  match s with
  | EmptyString => true
  | String c s' => isDigit c && allDigits s'
  end.

Definition validOptionalPort (port : string) : bool :=
  match port with
  | EmptyString => true
  | String c digits => Ascii.eqb c ":" && allDigits digits
  end.

(** [parseHost]. *)
Definition parseHost (host : string) : option string :=
  if strings.HasPrefix host "[" then
    match strings.LastIndex host "]" with
    | None => None
    | Some i =>
        if negb (validOptionalPort (strings.from (i + 1) host)) then None
        else
          match strings.Index (strings.upto i host) "%25" with
          | Some zone =>
              match unescape encodeHost (strings.upto zone host),
                    unescape encodeZone (String.substring zone (i - zone) host),
                    unescape encodeHost (strings.from i host) with
              | Some host1, Some host2, Some host3 => Some (host1 ++ host2 ++ host3)%string
              | _, _, _ => None
              end
          | None => unescape encodeHost host
          end
    end
  else
    match strings.LastIndex host ":" with
    | Some i =>
        if negb (validOptionalPort (strings.from i host)) then None
        else unescape encodeHost host
    | None => unescape encodeHost host
    end.

(** [validUserinfo]. *)
Fixpoint validUserinfo (s : string) : bool :=
  match s with
  | EmptyString => true
  | String c s' =>
      (isAlpha c || isDigit c || strings.inCutset c "-._:~!$&'()*+,;=%@") && validUserinfo s'
  end.

(** [parseAuthority]: the user information and the host of [user@host]. *)
Definition parseAuthority (authority : string) : option (option Userinfo * string) :=
  match strings.LastIndex authority "@" with
  | None => option_map (fun host => (None, host)) (parseHost authority)
  | Some i =>
      match parseHost (strings.from (i + 1) authority) with
      | None => None
      | Some host =>
          let userinfo := strings.upto i authority in
          if negb (validUserinfo userinfo) then None
          else if negb (strings.Contains userinfo ":") then
            match unescape encodeUserPassword userinfo with
            | None => None
            | Some name =>
                Some (Some {| username := name; password := ""; passwordSet := false |}, host)
            end
          else
            let '(name, pass, _) := strings.Cut userinfo ":" in
            match unescape encodeUserPassword name, unescape encodeUserPassword pass with
            | Some name', Some pass' =>
                Some (Some {| username := name'; password := pass'; passwordSet := true |}, host)
            | _, _ => None
            end
      end
  end.

(** The unexported [parse(rawURL, viaRequest)] at [viaRequest = false]. *)
Definition parse (rawURL : string) : option URL :=
  if stringContainsCTLByte rawURL then None
  else if String.eqb rawURL "*" then
    Some {| Scheme := ""; Opaque := ""; User := None; Host := ""; Path := "*";
            OmitHost := false; ForceQuery := false; RawQuery := ""; Fragment := "" |}
  else
    match getScheme rawURL with
    | None => None
    | Some (scheme0, rest0) =>
        let scheme := strings.ToLower scheme0 in
        let '(rest, force, query) :=
          if strings.HasSuffix rest0 "?" && (strings.CountByte rest0 "?" =? 1)%nat
          then (strings.upto (String.length rest0 - 1) rest0, true, EmptyString)
          else let '(r, q, _) := strings.Cut rest0 "?" in (r, false, q) in
        let rooted := strings.HasPrefix rest "/" in
        if negb rooted && negb (String.eqb scheme "") then
          Some {| Scheme := scheme; Opaque := rest; User := None; Host := ""; Path := "";
                  OmitHost := false; ForceQuery := force; RawQuery := query; Fragment := "" |}
        else if negb rooted && strings.Contains (fst (fst (strings.Cut rest "/"))) ":" then None
        else
          let withAuthority :=
            (negb (String.eqb scheme "") || negb (strings.HasPrefix rest "///"))
            && strings.HasPrefix rest "//" in
          let authority0 := strings.from 2 rest in
          let '(authority, path) :=
            if withAuthority then
              match strings.Index authority0 "/" with
              | Some i => (strings.upto i authority0, strings.from i authority0)
              | None => (authority0, EmptyString)
              end
            else (EmptyString, rest) in
          match (if withAuthority then parseAuthority authority else Some (None, EmptyString)) with
          | None => None
          | Some (user, host) =>
              match unescape encodePath path with
              | None => None
              | Some p =>
                  Some {| Scheme := scheme; Opaque := ""; User := user; Host := host; Path := p;
                          OmitHost := negb withAuthority && negb (String.eqb scheme "") && rooted;
                          ForceQuery := force; RawQuery := query; Fragment := "" |}
              end
          end
    end.

(** [url.Parse(rawURL)]: [None] stands for the pair (nil, err) with
    [err != nil]. *)
Definition Parse (rawURL : string) : option URL :=
  let '(u, frag, _) := strings.Cut rawURL "#" in
  match parse u with
  | None => None
  | Some parsed =>
      if String.eqb frag "" then Some parsed
      else
        match unescape encodeFragment frag with
        | None => None
        | Some f =>
            Some {| Scheme := Scheme parsed; Opaque := Opaque parsed; User := User parsed;
                    Host := Host parsed; Path := Path parsed; OmitHost := OmitHost parsed;
                    ForceQuery := ForceQuery parsed; RawQuery := RawQuery parsed;
                    Fragment := f |}
        end
  end.

End url.

(** ** Packages [net/http] and [golang.org/x/net/html]: the data the scanner handles *)

Module http.

(** [http.Header] with [Set]: one value per key, the last one set.  (The
    keys this program sets are in canonical form already.) *)
Definition Header := list (string * string).

Definition Header_Set (h : Header) (key value : string) : Header :=
  (key, value) :: filter (fun kv => negb (String.eqb (fst kv) key)) h.

(** [*http.Request]: what [http.NewRequest] builds and [Header.Set] changes. *)
Record Request := { Method : string; URL : url.URL; Headers : Header }.

Definition setHeader (req : Request) (key value : string) : Request :=
  {| Method := Method req; URL := URL req; Headers := Header_Set (Headers req) key value |}.

(** [removeEmptyPort(host)]: a trailing colon with no port is dropped. *)
Definition hasPort (host : string) : bool :=
  match strings.LastIndex host ":", strings.LastIndex host "]" with
  | Some i, Some j => (j <? i)%nat
  | Some _, None => true
  | None, _ => false
  end.

Definition removeEmptyPort (host : string) : string :=
  if hasPort host && strings.HasSuffix host ":"
  then strings.upto (String.length host - 1) host
  else host.

(** The request [http.NewRequest(method, url, nil)] builds from the parsed
    address: no headers yet, the empty port removed from the host. *)
Definition newRequest (method : string) (u : url.URL) : Request :=
  {| Method := method;
     URL := {| url.Scheme := url.Scheme u; url.Opaque := url.Opaque u; url.User := url.User u;
               url.Host := removeEmptyPort (url.Host u); url.Path := url.Path u;
               url.OmitHost := url.OmitHost u; url.ForceQuery := url.ForceQuery u;
               url.RawQuery := url.RawQuery u; url.Fragment := url.Fragment u |};
     Headers := [] |}.

(** [*http.Response]: the status code, the text [readBody] reads from
    [resp.Body], and [resp.Request.URL], the address that was finally
    fetched. *)
Record Response := { StatusCode : Z; Body : string; Request_URL : url.URL }.

End http.

Module html.

Record Attribute := { Key : string; Val : string }.

(** [html.Token]: the tag name or text, and the attributes. *)
Record Token := { Data : string; Attr : list Attribute }.

End html.

(** ** The scanner's own data *)

(** [type Result struct]. The field [Type] is written [Type_]. *)
Record Result := {
  Type_ : string;
  Status : string;
  URL : string;
  SourcePage : string
}.

(** What lies outside the process: [httpClient.Do], a function from the
    request sent to the response received ([None]: the call returned an
    error), and the environment variable [GITHUB_TOKEN] read into
    [githubToken] at start-up. *)
Record World := {
  transport : http.Request -> option http.Response;
  githubToken : string
}.

(** [maxWorkers]. *)
Definition maxWorkers : nat := 50.

(** The capacity of [resultsChan]. *)
Definition resultsCap : nat := 100.

(** A call of the program either returns or panics (a nil dereference, an
    index out of range), and sends requests on the way. *)
Inductive outcome (A : Type) : Type :=
| Returns (a : A)
| Panics.
Arguments Returns {A} a.
Arguments Panics {A}.

(** Computations of the scanner: given the world, an outcome and the
    requests sent, in order. *)
Definition IO (A : Type) : Type := World -> outcome A * list http.Request.

Definition ret {A} (a : A) : IO A := fun _ => (Returns a, []).

Definition bind {A B} (m : IO A) (k : A -> IO B) : IO B :=
  fun w =>
    match m w with
    | (Returns a, sent) => let (o, sent') := k a w in (o, sent ++ sent')
    | (Panics, sent) => (Panics, sent)
    end.

Definition panic {A} : IO A := fun _ => (Panics, []).

Notation "x <- m ;; k" := (bind m (fun x => k))
  (at level 61, m at next level, right associativity).

(** [httpClient.Do(req)]. *)
Definition httpClient_Do (req : http.Request) : IO (option http.Response) :=
  fun w => (Returns (transport w req), [req]).

(** Reading the package variable [githubToken]. *)
Definition readToken : IO string := fun w => (Returns (githubToken w), []).

(** [xs[i]]: Go panics when [i] is out of range. *)
Definition at_index (xs : list string) (i : nat) : IO string :=
  match nth_error xs i with
  | Some x => ret x
  | None => panic
  end.

(** [readBody(resp)]. *)
Definition readBody (resp : http.Response) : string := http.Body resp.

(** [%d] of [fmt.Sprintf]: the decimal numeral of an [int]. *)
Definition itoa (n : Z) : string := NilZero.string_of_int (Z.to_int n).

(** The library calls whose code is not part of the program: [url.Parse]
    ([None] when it returns an error), [URL.ResolveReference], [URL.String],
    and the tokens [html.NewTokenizer] yields for a body up to the first
    [ErrorToken]. *)
Class Library := {
  url_Parse : string -> option url.URL;
  URL_ResolveReference : url.URL -> url.URL -> url.URL;
  URL_String : url.URL -> string;
  html_Tokens : string -> list html.Token
}.

(** ** A fixture: a few pages, the hosts they link to and the metadata API

    Test doubles for the network and the library calls that are not
    modelled in full, used to run the scanner on concrete sites. *)

Module Fixture.

Definition pagesGone : string := "<p>There isn't a GitHub Pages site here.</p>".

(** A page with three absolute links. *)
Definition page : string :=
  "<a href='https://foo.github.io'>docs</a><a href='https://github.com/acme/widgets'>code</a><a href='https://example.org/about'>about</a>".

(** A page that links to a deleted app. *)
Definition appPage : string := "<a href='https://api-target.herokuapp.com'>app</a>".

(** A page whose only link has an escaped percent sign in its path. *)
Definition oddPage : string := "<a href='https://github.com/%25zz'>odd</a>".

Definition anchor (href text : string) : list html.Token :=
  [ {| html.Data := "a"; html.Attr := [ {| html.Key := "href"; html.Val := href |} ] |};
    {| html.Data := text; html.Attr := [] |};
    {| html.Data := "a"; html.Attr := [] |} ].

(** The tokens of the fixture's pages: per anchor a start tag, a text and
    an end tag. *)
Definition Tokens (body : string) : list html.Token :=
  if String.eqb body page then
    anchor "https://foo.github.io" "docs" ++ anchor "https://github.com/acme/widgets" "code"
    ++ anchor "https://example.org/about" "about"
  else if String.eqb body appPage then anchor "https://api-target.herokuapp.com" "app"
  else if String.eqb body oddPage then anchor "https://github.com/%25zz" "odd"
  else if String.eqb body pagesGone then
    [ {| html.Data := "p"; html.Attr := [] |};
      {| html.Data := "There isn't a GitHub Pages site here."; html.Attr := [] |};
      {| html.Data := "p"; html.Attr := [] |} ]
  else [].

(** [u.String()] on the links of the fixture: scheme, host and path, the
    one path that needs it escaped as Go prints it. *)
Definition String (u : url.URL) : string :=
  (url.Scheme u ++ "://" ++ url.Host u
   ++ (if String.eqb (url.Path u) "/%zz" then "/%25zz" else url.Path u))%string.

(** The fixture's links are absolute: nothing is resolved. *)
Definition ResolveReference (base ref : url.URL) : url.URL := ref.

Definition respond (status : Z) (body : string) (req : http.Request) : option http.Response :=
  Some {| http.StatusCode := status; http.Body := body; http.Request_URL := http.URL req |}.

(** The network: a site for each page, an unclaimed Pages host, a deleted
    app, a deleted repository; every other host is unreachable. *)
Definition network (req : http.Request) : option http.Response :=
  let host := url.Host (http.URL req) in
  let path := url.Path (http.URL req) in
  if String.eqb host "site-a.example" then respond 200 page req
  else if String.eqb host "site-b.example" then respond 200 oddPage req
  else if String.eqb host "site-c.example" then respond 200 appPage req
  else if String.eqb host "api-target.herokuapp.com" then respond 404 "<h1>no such app</h1>" req
  else if String.eqb host "foo.github.io" then respond 404 pagesGone req
  else if String.eqb host "api.github.com" then
    if String.eqb path "/repos/acme/widgets" then respond 404 "{}" req
    else if String.eqb path "/users/octocat" then respond 200 "{}" req
    else respond 500 "{}" req
  else None.

(** The libraries: the reference model of [url.Parse] and the doubles above. *)
Definition library : Library :=
  {| url_Parse := url.Parse; URL_ResolveReference := ResolveReference;
     URL_String := String; html_Tokens := Tokens |}.

Definition world : World := {| transport := network; githubToken := "" |}.

Definition worldWithToken : World := {| transport := network; githubToken := "s3cr3t" |}.

Definition sites : list string :=
  ["https://site-a.example/"; "https://site-c.example/"; "https://down.example/"].

(** The verdicts of the fixture's sites. *)
Definition pagesVerdict : Result :=
  {| Type_ := "github_pages"; Status := "possible_takeover";
     URL := "https://foo.github.io"; SourcePage := "https://site-a.example/" |}.
Definition repoVerdict : Result :=
  {| Type_ := "repo"; Status := "not_found";
     URL := "https://github.com/acme/widgets"; SourcePage := "https://site-a.example/" |}.
Definition appVerdict : Result :=
  {| Type_ := "heroku"; Status := "possible_takeover";
     URL := "https://api-target.herokuapp.com"; SourcePage := "https://site-c.example/" |}.

(** The URL a link parses to. *)
Definition parsed (link : string) : url.URL :=
  match url.Parse link with
  | Some u => u
  | None => url.empty
  end.

(** Links the examples probe. *)
Definition bareGist : string := "https://gist.github.com/".
Definition userGist : string := "https://gist.github.com/octocat".
Definition pagesLink : string := "https://foo.github.io".
Definition repoLink : string := "https://github.com/acme/widgets".
Definition oddLink : string := "https://github.com/%25zz".
Definition brokenLink : string := "http://github.com/%zz".
Definition deepPagesLink : string := "https://foo.github.io/acme/widgets".
Definition otherLink : string := "https://example.org/about".
Definition repoAPI : string := "https://api.github.com/repos/acme/widgets".
Definition downSite : string := "https://down.example/".
Definition oddSite : string := "https://site-b.example/".


(** More links: one that holds the patterns of two services, a blog, a
    store page of an extension, and an issue of a repository. *)
Definition overlapLink : string := "https://herokuapp.com.s3.amazonaws.com/logo.png".
Definition blogLink : string := "https://gone.tumblr.com/".
Definition extensionLink : string :=
  "https://chrome.google.com/webstore/detail/dark-reader/eimadpbcbfnmbkopoojfekhnkhdbieeh".
Definition issueLink : string := "https://github.com/acme/widgets/issues/7".

(** A network where every host answers alike. *)
Definition uniform (status : Z) (body : string) : World :=
  {| transport := respond status body; githubToken := "" |}.

End Fixture.

Section Scanner.

(** The scanner is verified against any implementation of the library
    calls it makes. *)
Context {lib : Library}.

(** [http.NewRequest(method, url, nil)] for a valid method: it fails, with a
    nil request, exactly when [url.Parse] does. *)
Definition http_NewRequest (method target : string) : option http.Request :=
  match url_Parse target with
  | None => None
  | Some u => Some (http.newRequest method u)
  end.

(** [httpClient.Get(url)]: [NewRequest] then [Do]; an unparsable address
    is an error of the call. *)
Definition httpClient_Get (target : string) : IO (option http.Response) :=
  match http_NewRequest "GET" target with
  | None => ret None
  | Some req => httpClient_Do req
  end.

(** *** Link extraction *)

(** The [href] values of one token, as the inner [for] of [extractLinks]
    appends them. *)
Definition hrefLinks (resp : http.Response) (token : html.Token) : list string :=
  if String.eqb (html.Data token) "a" then
    flat_map
      (fun attr =>
         if String.eqb (html.Key attr) "href" then
           match url_Parse (html.Val attr) with
           | Some u =>
               let u' := if negb (url.IsAbs u)
                         then URL_ResolveReference (http.Request_URL resp) u else u in
               [URL_String u']
           | None => []
           end
         else [])
      (html.Attr token)
  else [].

Definition extractLinks (site : string) : IO (list string) :=
  r <- httpClient_Get site ;;
  match r with
  | None => ret []
  | Some resp => ret (flat_map (hrefLinks resp) (html_Tokens (http.Body resp)))
  end.

(** *** GitHub support *)

Definition githubAPIRequest (entityType api link : string) : IO Result :=
  match http_NewRequest "GET" api with
  | None => panic (* req is nil and req.Header is read *)
  | Some req0 =>
      let req1 := http.setHeader req0 "User-Agent" "Takeover-Scanner" in
      token <- readToken ;;
      let req :=
        if negb (String.eqb token "")
        then http.setHeader req1 "Authorization" ("token " ++ token)
        else req1 in
      r <- httpClient_Do req ;;
      match r with
      | None => ret {| Type_ := entityType; Status := "connection_error"; URL := link; SourcePage := "" |}
      | Some resp =>
          let sc := http.StatusCode resp in
          if (sc =? 404)%Z then
            ret {| Type_ := entityType; Status := "not_found"; URL := link; SourcePage := "" |}
          else if (sc =? 200)%Z then
            ret {| Type_ := entityType; Status := "exists"; URL := link; SourcePage := "" |}
          else if (sc =? 403)%Z || (sc =? 429)%Z then
            ret {| Type_ := entityType; Status := "rate_limited"; URL := link; SourcePage := "" |}
          else
            ret {| Type_ := entityType; Status := ("error_" ++ itoa sc)%string; URL := link; SourcePage := "" |}
      end
  end.

Definition checkGitHub (link : string) : IO Result :=
  match url_Parse link with
  | None => panic (* parsed is nil and parsed.Path is read *)
  | Some parsed =>
      let parts := strings.Split (strings.Trim (url.Path parsed) "/") "/" in
      if strings.Contains link "github.io" then
        r <- httpClient_Get link ;;
        match r with
        | None => ret {| Type_ := "github_pages"; Status := "connection_error"; URL := link; SourcePage := "" |}
        | Some resp =>
            let body := readBody resp in
            if strings.Contains body "There isn't a GitHub Pages site here." then
              ret {| Type_ := "github_pages"; Status := "possible_takeover"; URL := link; SourcePage := "" |}
            else
              ret {| Type_ := "github_pages"; Status := "ok"; URL := link; SourcePage := "" |}
        end
      else if strings.Contains link "gist.github.com" && (2 <=? List.length parts)%nat then
        id <- at_index parts (List.length parts - 1) ;;
        githubAPIRequest "gist" ("https://api.github.com/gists/" ++ id) link
      else if (2 <=? List.length parts)%nat then
        owner <- at_index parts 0 ;;
        repo <- at_index parts 1 ;;
        githubAPIRequest "repo" ("https://api.github.com/repos/" ++ owner ++ "/" ++ repo) link
      else if (List.length parts =? 1)%nat && negb (String.eqb (nth 0 parts "") "") then
        user <- at_index parts 0 ;;
        githubAPIRequest "user" ("https://api.github.com/users/" ++ user) link
      else
        ret {| Type_ := "github"; Status := "invalid_url"; URL := link; SourcePage := "" |}
  end.

(** *** Other services *)

Definition checkS3 (link : string) : IO Result :=
  r <- httpClient_Get link ;;
  match r with
  | None => ret {| Type_ := "s3"; Status := "connection_error"; URL := link; SourcePage := "" |}
  | Some resp =>
      let body := readBody resp in
      if strings.Contains body "NoSuchBucket" then
        ret {| Type_ := "s3"; Status := "possible_takeover"; URL := link; SourcePage := "" |}
      else ret {| Type_ := "s3"; Status := "ok"; URL := link; SourcePage := "" |}
  end.

Definition checkHeroku (link : string) : IO Result :=
  r <- httpClient_Get link ;;
  match r with
  | None => ret {| Type_ := "heroku"; Status := "connection_error"; URL := link; SourcePage := "" |}
  | Some resp =>
      let body := readBody resp in
      if strings.Contains body "no such app" then
        ret {| Type_ := "heroku"; Status := "possible_takeover"; URL := link; SourcePage := "" |}
      else ret {| Type_ := "heroku"; Status := "ok"; URL := link; SourcePage := "" |}
  end.

Definition checkVercel (link : string) : IO Result :=
  r <- httpClient_Get link ;;
  match r with
  | None => ret {| Type_ := "vercel"; Status := "connection_error"; URL := link; SourcePage := "" |}
  | Some resp =>
      let body := readBody resp in
      if strings.Contains body "Vercel" && strings.Contains body "404" then
        ret {| Type_ := "vercel"; Status := "possible_takeover"; URL := link; SourcePage := "" |}
      else ret {| Type_ := "vercel"; Status := "ok"; URL := link; SourcePage := "" |}
  end.

Definition checkNetlify (link : string) : IO Result :=
  r <- httpClient_Get link ;;
  match r with
  | None => ret {| Type_ := "netlify"; Status := "connection_error"; URL := link; SourcePage := "" |}
  | Some resp =>
      let body := readBody resp in
      if strings.Contains body "Not Found" && strings.Contains body "netlify" then
        ret {| Type_ := "netlify"; Status := "possible_takeover"; URL := link; SourcePage := "" |}
      else ret {| Type_ := "netlify"; Status := "ok"; URL := link; SourcePage := "" |}
  end.

Definition checkChromeExtension (link : string) : IO Result :=
  match url_Parse link with
  | None => ret {| Type_ := "chrome_ext"; Status := "invalid_url"; URL := link; SourcePage := "" |}
  | Some u =>
      let parts := strings.Split (strings.Trim (url.Path u) "/") "/" in
      if (List.length parts <? 2)%nat then
        ret {| Type_ := "chrome_ext"; Status := "invalid_url"; URL := link; SourcePage := "" |}
      else
        extID <- at_index parts (List.length parts - 1) ;;
        let checkURL := ("https://chrome.google.com/webstore/detail/" ++ extID)%string in
        r <- httpClient_Get checkURL ;;
        match r with
        | None => ret {| Type_ := "chrome_ext"; Status := "connection_error"; URL := link; SourcePage := "" |}
        | Some resp =>
            let body := readBody resp in
            if strings.Contains body "Item not found" || strings.Contains body "404" then
              ret {| Type_ := "chrome_ext"; Status := "not_found"; URL := link; SourcePage := "" |}
            else ret {| Type_ := "chrome_ext"; Status := "exists"; URL := link; SourcePage := "" |}
        end
  end.

Definition checkWix (link : string) : IO Result :=
  r <- httpClient_Get link ;;
  match r with
  | None => ret {| Type_ := "wix"; Status := "connection_error"; URL := link; SourcePage := "" |}
  | Some resp =>
      let body := readBody resp in
      if strings.Contains body "domain isn’t connected to a website"
         || strings.Contains body "Looks like this domain" then
        ret {| Type_ := "wix"; Status := "possible_takeover"; URL := link; SourcePage := "" |}
      else ret {| Type_ := "wix"; Status := "ok"; URL := link; SourcePage := "" |}
  end.

Definition checkTumblr (link : string) : IO Result :=
  r <- httpClient_Get link ;;
  match r with
  | None => ret {| Type_ := "tumblr"; Status := "connection_error"; URL := link; SourcePage := "" |}
  | Some resp =>
      let body := readBody resp in
      if strings.Contains body "There's nothing here" || (http.StatusCode resp =? 404)%Z then
        ret {| Type_ := "tumblr"; Status := "possible_takeover"; URL := link; SourcePage := "" |}
      else ret {| Type_ := "tumblr"; Status := "ok"; URL := link; SourcePage := "" |}
  end.

Definition checkShopify (link : string) : IO Result :=
  r <- httpClient_Get link ;;
  match r with
  | None => ret {| Type_ := "shopify"; Status := "connection_error"; URL := link; SourcePage := "" |}
  | Some resp =>
      let body := readBody resp in
      if strings.Contains body "store is unavailable"
         || strings.Contains body "This store is unavailable" then
        ret {| Type_ := "shopify"; Status := "possible_takeover"; URL := link; SourcePage := "" |}
      else ret {| Type_ := "shopify"; Status := "ok"; URL := link; SourcePage := "" |}
  end.

(** *** Dispatcher *)

Definition detectService (link : string) : IO Result :=
  if strings.Contains link "github.com" || strings.Contains link "github.io"
     || strings.Contains link "gist.github.com" then checkGitHub link
  else if strings.Contains link ".s3.amazonaws.com" then checkS3 link
  else if strings.Contains link "herokuapp.com" then checkHeroku link
  else if strings.Contains link ".vercel.app" then checkVercel link
  else if strings.Contains link ".netlify.app" then checkNetlify link
  else if strings.Contains link "chrome.google.com/webstore/detail/" then checkChromeExtension link
  else if strings.Contains link ".wixsite.com" then checkWix link
  else if strings.Contains link ".tumblr.com" then checkTumblr link
  else if strings.Contains link ".myshopify.com" then checkShopify link
  else ret {| Type_ := "unknown"; Status := "skipped"; URL := link; SourcePage := "" |}.

(** *** Worker *)

(** One turn of the inner loop of [worker], up to the send: the verdict to
    put on [results], if any.  (The lines printed to the console and the
    pause after each link leave no mark on the results and are not
    modelled.) *)
Definition probeLink (site l : string) : IO (option Result) :=
  r0 <- detectService l ;;
  let r := {| Type_ := Type_ r0; Status := Status r0; URL := URL r0; SourcePage := site |} in
  if negb (String.eqb (Type_ r) "unknown") then ret (Some r) else ret None.

(** A worker goroutine is at the receive of [for site := range jobs], inside
    the inner loop with links left to probe, at the send [results <- r], or
    past the loop (its deferred [wg.Done] has run). *)
Inductive goroutine : Type :=
| Waiting
| Scanning (site : string) (links : list string)
| Sending (r : Result) (site : string) (links : list string)
| Finished.

(** The state [main] and its workers share: the sites [main] has still to
    put on [jobs], whether [close(jobs)] has run, the two channel buffers
    (oldest element first), the workers, and [main]'s slice [results]. *)
Record pool := {
  unsent : list string;
  closed : bool;
  jobs : list string;
  workers : list goroutine;
  resultsChan : list Result;
  results : list Result
}.

(** A run is under way, has died of a panic in a goroutine, or has left the
    collecting loop of [main] with the slice [results] complete. *)
Inductive config : Type :=
| Running (p : pool)
| Crashed
| Collected (report : list Result).

Definition setWorkers (p : pool) (ws : list goroutine) : pool :=
  {| unsent := unsent p; closed := closed p; jobs := jobs p; workers := ws;
     resultsChan := resultsChan p; results := results p |}.

(** [main] after reading [sites.txt]: [n] workers started, nothing queued. *)
Definition start (n : nat) (sites : list string) : config :=
  Running {| unsent := sites; closed := false; jobs := []; workers := repeat Waiting n;
             resultsChan := []; results := [] |}.

(** The moves of the goroutines, interleaved in any order. *)
Inductive step (w : World) : config -> config -> Prop :=
| step_enqueue p site rest :
    (* main: jobs <- site; the buffer holds len(sites) and never blocks *)
    unsent p = site :: rest ->
    step w (Running p)
      (Running {| unsent := rest; closed := closed p; jobs := jobs p ++ [site];
                  workers := workers p; resultsChan := resultsChan p; results := results p |})
| step_close p :
    (* main: close(jobs) *)
    unsent p = [] -> closed p = false ->
    step w (Running p)
      (Running {| unsent := []; closed := true; jobs := jobs p;
                  workers := workers p; resultsChan := resultsChan p; results := results p |})
| step_receive p ws1 ws2 site rest :
    (* a worker receives a site and extracts its links *)
    workers p = ws1 ++ Waiting :: ws2 -> jobs p = site :: rest ->
    step w (Running p)
      (match fst (extractLinks site w) with
       | Returns links =>
           Running {| unsent := unsent p; closed := closed p; jobs := rest;
                      workers := ws1 ++ Scanning site links :: ws2;
                      resultsChan := resultsChan p; results := results p |}
       | Panics => Crashed
       end)
| step_leave p ws1 ws2 :
    (* the range loop of a worker ends: jobs is closed and drained *)
    workers p = ws1 ++ Waiting :: ws2 -> jobs p = [] -> closed p = true ->
    step w (Running p) (Running (setWorkers p (ws1 ++ Finished :: ws2)))
| step_probe p ws1 ws2 site l links :
    (* r := detectService(l); r.SourcePage = site; the test on r.Type *)
    workers p = ws1 ++ Scanning site (l :: links) :: ws2 ->
    step w (Running p)
      (match fst (probeLink site l w) with
       | Returns (Some r) => Running (setWorkers p (ws1 ++ Sending r site links :: ws2))
       | Returns None => Running (setWorkers p (ws1 ++ Scanning site links :: ws2))
       | Panics => Crashed
       end)
| step_send p ws1 ws2 r site links :
    (* results <- r, when the buffer has room *)
    workers p = ws1 ++ Sending r site links :: ws2 ->
    (List.length (resultsChan p) < resultsCap)%nat ->
    step w (Running p)
      (Running {| unsent := unsent p; closed := closed p; jobs := jobs p;
                  workers := ws1 ++ Scanning site links :: ws2;
                  resultsChan := resultsChan p ++ [r]; results := results p |})
| step_next p ws1 ws2 site :
    (* the links of a site are done: back to the receive *)
    workers p = ws1 ++ Scanning site [] :: ws2 ->
    step w (Running p) (Running (setWorkers p (ws1 ++ Waiting :: ws2)))
| step_collect p r rest :
    (* main, past close(jobs): results = append(results, r) *)
    closed p = true -> resultsChan p = r :: rest ->
    step w (Running p)
      (Running {| unsent := unsent p; closed := closed p; jobs := jobs p;
                  workers := workers p; resultsChan := rest; results := results p ++ [r] |})
| step_done p :
    (* wg.Wait() returns, resultsChan is closed and drained: the loop of main ends *)
    closed p = true -> Forall (fun g => g = Finished) (workers p) -> resultsChan p = [] ->
    step w (Running p) (Collected (results p)).

(** Runs: any number of moves. *)
Inductive reaches (w : World) : config -> config -> Prop :=
| reaches_refl c : reaches w c c
| reaches_step c1 c2 c3 : step w c1 c2 -> reaches w c2 c3 -> reaches w c1 c3.

(** What the program writes: the rows of [results.csv] and the lines of
    [takeovers.txt]. *)
Definition csvRows (rs : list Result) : list (list string) :=
  ["Type"; "Status"; "URL"; "SourcePage"]
    :: map (fun r => [Type_ r; Status r; URL r; SourcePage r]) rs.

Definition takeoverLines (rs : list Result) : list string :=
  map (fun r => (URL r ++ " (found in: " ++ SourcePage r ++ ")")%string)
      (filter (fun r => String.eqb (Status r) "possible_takeover") rs).

(** The links of a site and the verdicts a worker sends for it, in order. *)
Definition linksOf (w : World) (site : string) : list string :=
  match fst (extractLinks site w) with
  | Returns links => links
  | Panics => []
  end.

Definition sentFor (w : World) (site : string) (links : list string) : list Result :=
  flat_map (fun l => match fst (probeLink site l w) with
                     | Returns (Some r) => [r]
                     | _ => []
                     end) links.

Definition siteVerdicts (w : World) (site : string) : list Result :=
  sentFor w site (linksOf w site).

(** No link of these sites makes its prober panic. *)
Definition panicFree (w : World) (sites : list string) : Prop :=
  forall site l, In site sites -> In l (linksOf w site) ->
    fst (probeLink site l w) <> Panics.

(** A prober that always returns, with one fixed kind. *)
Definition answers (check : string -> IO Result) (kind : string) : Prop :=
  forall link w, exists r sent,
    check link w = (Returns r, sent) /\ Type_ r = kind /\ URL r = link.

(** The kind a call assigns, if it returns. *)
Definition kindOf (o : outcome Result) : option string :=
  match o with
  | Returns r => Some (Type_ r)
  | Panics => None
  end.

(** The verdicts a pool still owes or holds: those collected, those in the
    channel, the one a worker is sending and those of its remaining links,
    and those of the sites still queued. *)
Definition owed (w : World) (g : goroutine) : list Result :=
  match g with
  | Waiting | Finished => []
  | Scanning site links => sentFor w site links
  | Sending r site links => r :: sentFor w site links
  end.

Definition accounted (w : World) (p : pool) : list Result :=
  results p ++ resultsChan p ++ flat_map (owed w) (workers p)
  ++ flat_map (siteVerdicts w) (jobs p ++ unsent p).

(** Once [jobs] is closed nothing is left to enqueue, and a worker leaves
    only when [jobs] is closed and drained. *)
Definition drained (p : pool) : Prop :=
  (closed p = true -> unsent p = [])
  /\ (In Finished (workers p) -> closed p = true /\ jobs p = []).

(** The verdicts all the sites give rise to. *)
Definition expected (w : World) (sites : list string) : list Result :=
  flat_map (siteVerdicts w) sites.

(** What holds of every configuration a run with [n] workers passes
    through. *)
Definition sound (w : World) (n : nat) (sites : list string) (c : config) : Prop :=
  match c with
  | Running p =>
      Permutation (accounted w p) (expected w sites)
      /\ drained p /\ List.length (workers p) = n
  | Crashed => True
  | Collected rs =>
      exists rest, Permutation (rs ++ rest) (expected w sites) /\ (n <> 0%nat -> rest = [])
  end.

(** A bound on the moves a configuration has left: per link a probe, a
    send and a collect; per site a receive and the return to the receive;
    per worker its leaving; per queued site its enqueueing; the close and
    the end of the collecting loop. *)
Definition siteCost (w : World) (site : string) : nat :=
  3 * List.length (linksOf w site) + 2.

Definition cost (g : goroutine) : nat :=
  match g with
  | Waiting => 1
  | Scanning _ links => 3 * List.length links + 2
  | Sending _ _ links => 3 * List.length links + 4
  | Finished => 0
  end.

Definition movesLeft (w : World) (c : config) : nat :=
  match c with
  | Running p =>
      1 + list_sum (map (fun site => S (siteCost w site)) (unsent p))
      + (if closed p then 0 else 1)
      + list_sum (map (siteCost w) (jobs p))
      + list_sum (map cost (workers p))
      + List.length (resultsChan p)
  | Crashed | Collected _ => 0
  end.

(** The workers of a run over [sites] probe links of these sites only. *)
Definition onSites (w : World) (sites : list string) (g : goroutine) : Prop :=
  match g with
  | Scanning site links | Sending _ site links =>
      In site sites /\ incl links (linksOf w site)
  | Waiting | Finished => True
  end.

Definition tame (w : World) (sites : list string) (c : config) : Prop :=
  match c with
  | Running p =>
      incl (unsent p) sites /\ incl (jobs p) sites /\ Forall (onSites w sites) (workers p)
  | Crashed => False
  | Collected _ => True
  end.

(** The kinds whose prober reads a page and looks for a placeholder text,
    and the kinds the metadata API answers for. *)
Definition signatureKinds : list string :=
  ["github_pages"; "s3"; "heroku"; "vercel"; "netlify"; "wix"; "tumblr"; "shopify"].

Definition apiKinds : list string := ["gist"; "repo"; "user"].

(** The statuses that go with each kind. *)
Definition verdictShape (r : Result) : Prop :=
  (In (Type_ r) signatureKinds
   /\ In (Status r) ["connection_error"; "possible_takeover"; "ok"])
  \/ (In (Type_ r) apiKinds
      /\ (In (Status r) ["connection_error"; "not_found"; "exists"; "rate_limited"]
          \/ exists code, Status r = ("error_" ++ itoa code)%string))
  \/ (Type_ r = "github" /\ Status r = "invalid_url")
  \/ (Type_ r = "chrome_ext"
      /\ In (Status r) ["invalid_url"; "connection_error"; "not_found"; "exists"])
  \/ (Type_ r = "unknown" /\ Status r = "skipped").

(** At most one request, and a GET. *)
Definition oneGet (sent : list http.Request) : Prop :=
  (List.length sent <= 1)%nat /\ Forall (fun req => http.Method req = "GET") sent.

(** A prober that never panics, answers about the link it was given with
    its own kind and one of [statuses], and sends at most one GET. *)
Definition wellBehaved (check : string -> IO Result) (kind : string)
    (statuses : list string) : Prop :=
  forall link w, exists r sent,
    check link w = (Returns r, sent)
    /\ Type_ r = kind /\ In (Status r) statuses
    /\ URL r = link /\ SourcePage r = "" /\ oneGet sent.

(** The match table of [detectService] after its first case, in the order
    of the cases, and the lookup that takes the first pattern found. *)
Definition serviceTable : list (string * string) :=
  [ (".s3.amazonaws.com", "s3"); ("herokuapp.com", "heroku"); (".vercel.app", "vercel");
    (".netlify.app", "netlify"); ("chrome.google.com/webstore/detail/", "chrome_ext");
    (".wixsite.com", "wix"); (".tumblr.com", "tumblr"); (".myshopify.com", "shopify") ].

Fixpoint firstMatch (link : string) (table : list (string * string)) : string :=
  match table with
  | [] => "unknown"
  | (pattern, kind) :: rest =>
      if strings.Contains link pattern then kind else firstMatch link rest
  end.

(** The requests a worker sends for one site: the fetch of its page, then
    those of the probers, link by link. *)
Definition siteRequests (w : World) (site : string) : list http.Request :=
  snd (extractLinks site w) ++ flat_map (fun l => snd (detectService l w)) (linksOf w site).

(** Runs counted by their moves. *)
Inductive reachesIn (w : World) : nat -> config -> config -> Prop :=
| reachesIn_refl c : reachesIn w 0 c c
| reachesIn_step k c1 c2 c3 :
    step w c1 c2 -> reachesIn w k c2 c3 -> reachesIn w (S k) c1 c3.



(** The sites the workers are on, and the rows of one site within a list
    of verdicts. *)
Definition busy (g : goroutine) : list string :=
  match g with
  | Scanning site _ | Sending _ site _ => [site]
  | Waiting | Finished => []
  end.

Definition rowsOf (site : string) (rs : list Result) : list Result :=
  filter (fun r => String.eqb (SourcePage r) site) rs.

(** A worker at a send holds a verdict of the site it is on. *)
Definition holdsOwn (g : goroutine) : Prop :=
  match g with
  | Sending r site _ => SourcePage r = site
  | Waiting | Scanning _ _ | Finished => True
  end.

(** The rows of one site across a pool, in the order in which they reach
    the report: those collected, those in the channel, those the workers
    owe and those of the sites still queued. *)
Definition rowsAhead (w : World) (site : string) (p : pool) : list Result :=
  rowsOf site (results p) ++ rowsOf site (resultsChan p)
  ++ flat_map (fun g => rowsOf site (owed w g)) (workers p)
  ++ flat_map (fun s => rowsOf site (siteVerdicts w s)) (jobs p ++ unsent p).

(** No site is in two places at once, and the rows of each site are lined
    up as on its page. *)
Definition inOrder (w : World) (sites : list string) (p : pool) : Prop :=
  NoDup (flat_map busy (workers p) ++ jobs p ++ unsent p)
  /\ Forall holdsOwn (workers p)
  /\ forall site,
       rowsAhead w site p = flat_map (fun s => rowsOf site (siteVerdicts w s)) sites.

(** Requests without headers, as [httpClient.Get] sends them. *)
Definition plain (sent : list http.Request) : Prop :=
  Forall (fun req => http.Headers req = []) sent.

Ltac run_io :=
  unfold bind, ret, panic, httpClient_Get, httpClient_Do, readToken, readBody; cbn [fst snd app].

(** ** Properties *)

(** *** Strings *)

Lemma splitFrom_nonempty sep skip cur s : strings.splitFrom sep skip cur s <> [].
Proof.
  revert skip cur. induction s as [|c s IH]; intros skip cur; cbn [strings.splitFrom].
  - discriminate.
  - destruct skip as [|k]; [|apply IH].
    destruct (strings.HasPrefix (String c s) sep); [discriminate | apply IH].
Qed.

(** [strings.Split] never returns an empty slice. *)
Lemma Split_nonempty s sep : strings.Split s sep <> [].
Proof.
  unfold strings.Split. destruct sep; [discriminate | apply splitFrom_nonempty].
Qed.

Lemma append_unit_assoc (a : string) c b :
  ((a ++ String c EmptyString) ++ b)%string = (a ++ String c b)%string.
Proof. induction a as [|x a IH]; simpl; [reflexivity | now rewrite IH]. Qed.

Lemma append_empty_r (a : string) : (a ++ "")%string = a.
Proof. induction a as [|x a IH]; simpl; [reflexivity | now rewrite IH]. Qed.

Lemma splitFrom_single sep cur s p :
  strings.splitFrom sep 0 cur s = [p] -> p = (cur ++ s)%string.
Proof.
  revert cur. induction s as [|c s IH]; intros cur; cbn [strings.splitFrom].
  - intros [= <-]. now rewrite append_empty_r.
  - destruct (strings.HasPrefix (String c s) sep).
    + intros [= _ H]. now apply splitFrom_nonempty in H.
    + intros H. apply IH in H. now rewrite append_unit_assoc in H.
Qed.

(** A split into one piece leaves the string as it is. *)
Lemma Split_single s sep p : strings.Split s sep = [p] -> p = s.
Proof.
  unfold strings.Split. destruct sep.
  - now intros [= <-].
  - intros H. now apply splitFrom_single in H.
Qed.

Lemma Split_short s sep :
  (List.length (strings.Split s sep) < 2)%nat -> strings.Split s sep = [s].
Proof.
  intros Hlen. pose proof (Split_nonempty s sep) as Hne.
  destruct (strings.Split s sep) as [|p [|q rest]] eqn:E; simpl in Hlen.
  - contradiction.
  - apply Split_single in E. now subst.
  - lia.
Qed.

(** *** The computations *)

Lemma bind_ret {A B} (a : A) (k : A -> IO B) w : bind (ret a) k w = k a w.
Proof. unfold bind, ret. now destruct (k a w). Qed.

Lemma itoa_reads_back n : option_map Z.of_int (NilZero.int_of_string (itoa n)) = Some n.
Proof.
  unfold itoa. rewrite NilZero.isi.
  - simpl. now rewrite DecimalZ.of_to.
  - destruct n as [|p|p]; simpl; try discriminate.
    intros [= H]. exact (DecimalPos.Unsigned.to_uint_nonnil p H).
  - destruct n as [|p|p]; simpl; try discriminate.
    intros [= H]. exact (DecimalPos.Unsigned.to_uint_nonnil p H).
Qed.

(** [http.NewRequest] succeeds exactly on the addresses [url.Parse] accepts. *)
Lemma NewRequest_parsed method target u :
  url_Parse target = Some u ->
  http_NewRequest method target = Some (http.newRequest method u).
Proof. unfold http_NewRequest. now intros ->. Qed.

(** *** The code-forge prober *)

(** The status a response of the metadata API is mapped to. *)
Lemma githubAPIRequest_run entityType api link w req0 :
  http_NewRequest "GET" api = Some req0 ->
  exists req r,
    githubAPIRequest entityType api link w = (Returns r, [req])
    /\ req = (if negb (String.eqb (githubToken w) "")
              then http.setHeader (http.setHeader req0 "User-Agent" "Takeover-Scanner")
                     "Authorization" ("token " ++ githubToken w)
              else http.setHeader req0 "User-Agent" "Takeover-Scanner")
    /\ Type_ r = entityType /\ URL r = link /\ SourcePage r = ""
    /\ Status r =
         match transport w req with
         | None => "connection_error"
         | Some resp =>
             let sc := http.StatusCode resp in
             if (sc =? 404)%Z then "not_found"
             else if (sc =? 200)%Z then "exists"
             else if (sc =? 403)%Z || (sc =? 429)%Z then "rate_limited"
             else ("error_" ++ itoa sc)%string
         end.
Proof.
  intros Hreq. unfold githubAPIRequest. rewrite Hreq. run_io.
  set (req := if negb (String.eqb (githubToken w) "") then _ else _).
  exists req.
  destruct (transport w req) as [resp|] eqn:Hresp.
  - destruct (http.StatusCode resp =? 404)%Z eqn:E404;
      [| destruct (http.StatusCode resp =? 200)%Z eqn:E200;
         [| destruct ((http.StatusCode resp =? 403)%Z || (http.StatusCode resp =? 429)%Z) eqn:E403 ]];
      eexists; cbn; rewrite ?E404, ?E200, ?E403; repeat split; reflexivity.
  - eexists. cbn. repeat split; reflexivity.
Qed.

(** C3: for a link handed to the metadata API (the request could be
    built, so it is sent), the verdict keeps the entity and the link, and
    its status is [not_found] on HTTP 404, [exists] on 200, [rate_limited]
    on 403 and on 429, [error_] followed by the decimal code, which reads
    back as that code, on any other status, and [connection_error] when the
    call fails without a response. *)
Theorem C3_api_status_mapping :
  forall entityType api link w req0,
    http_NewRequest "GET" api = Some req0 ->
    exists req r,
      githubAPIRequest entityType api link w = (Returns r, [req])
      /\ http.Method req = "GET" /\ http.URL req = http.URL req0
      /\ Type_ r = entityType /\ URL r = link
      /\ (transport w req = None -> Status r = "connection_error")
      /\ (forall resp, transport w req = Some resp ->
            let sc := http.StatusCode resp in
            (sc = 404%Z -> Status r = "not_found")
            /\ (sc = 200%Z -> Status r = "exists")
            /\ (sc = 403%Z \/ sc = 429%Z -> Status r = "rate_limited")
            /\ (sc <> 404%Z -> sc <> 200%Z -> sc <> 403%Z -> sc <> 429%Z ->
                Status r = ("error_" ++ itoa sc)%string
                /\ option_map Z.of_int (NilZero.int_of_string (itoa sc)) = Some sc)).
Proof.
  intros entityType api link w req0 Hreq.
  destruct (githubAPIRequest_run entityType api link w req0 Hreq)
    as (req & r & Hrun & Hrq & Hty & Hurl & _ & Hst).
  exists req, r. split; [exact Hrun|].
  split; [subst req; unfold http_NewRequest in Hreq;
          destruct (url_Parse api); [injection Hreq as <-|discriminate];
          destruct (negb _); reflexivity|].
  split; [subst req; destruct (negb _); reflexivity|].
  split; [exact Hty|]. split; [exact Hurl|]. split.
  - intros Hnone. now rewrite Hnone in Hst.
  - intros resp Hresp sc. rewrite Hresp in Hst. cbn zeta in Hst. fold sc in Hst.
    repeat split.
    + intros E. now rewrite E in Hst.
    + intros E. now rewrite E in Hst.
    + intros [E|E]; now rewrite E in Hst.
    + destruct (Z.eqb_spec sc 404); [contradiction|].
      destruct (Z.eqb_spec sc 200); [contradiction|].
      destruct (Z.eqb_spec sc 403); [contradiction|].
      destruct (Z.eqb_spec sc 429); [contradiction|]. exact Hst.
    + apply itoa_reads_back.
Qed.

(** C7: two runs of the metadata-API probe on one link, with any two
    credential settings, whose requests meet the same upstream answer: the
    verdicts are equal, and the requests differ at most in the
    [Authorization] header. *)
Theorem C7_credential_noninterference :
  forall entityType api link w1 w2,
    (forall req1 req2,
        snd (githubAPIRequest entityType api link w1) = [req1] ->
        snd (githubAPIRequest entityType api link w2) = [req2] ->
        transport w1 req1 = transport w2 req2) ->
    fst (githubAPIRequest entityType api link w1) = fst (githubAPIRequest entityType api link w2)
    /\ forall req1 req2,
        snd (githubAPIRequest entityType api link w1) = [req1] ->
        snd (githubAPIRequest entityType api link w2) = [req2] ->
        http.Method req1 = http.Method req2 /\ http.URL req1 = http.URL req2
        /\ filter (fun kv => negb (String.eqb (fst kv) "Authorization")) (http.Headers req1)
           = filter (fun kv => negb (String.eqb (fst kv) "Authorization")) (http.Headers req2).
Proof.
  intros entityType api link w1 w2 Hsame.
  destruct (http_NewRequest "GET" api) as [req0|] eqn:Hreq.
  - destruct (githubAPIRequest_run entityType api link w1 req0 Hreq)
      as (req1 & r1 & Hrun1 & Hrq1 & Hty1 & Hurl1 & Hsp1 & Hst1).
    destruct (githubAPIRequest_run entityType api link w2 req0 Hreq)
      as (req2 & r2 & Hrun2 & Hrq2 & Hty2 & Hurl2 & Hsp2 & Hst2).
    rewrite Hrun1, Hrun2 in *. cbn [fst snd] in *.
    specialize (Hsame req1 req2 eq_refl eq_refl).
    split.
    + f_equal. destruct r1, r2; cbn in *. subst.
      f_equal. rewrite Hsame. reflexivity.
    + intros q1 q2 [= <-] [= <-]. subst req1 req2.
      assert (Hh : http.Headers req0 = []).
      { unfold http_NewRequest in Hreq.
        destruct (url_Parse api); [injection Hreq as <-; reflexivity | discriminate]. }
      destruct (negb (String.eqb (githubToken w1) ""));
        destruct (negb (String.eqb (githubToken w2) ""));
        cbn; rewrite Hh; cbn; repeat split; reflexivity.
  - unfold githubAPIRequest. rewrite Hreq. unfold panic. cbn.
    split; [reflexivity | intros ? ? [=]].
Qed.

(** Where [checkGitHub] sends a link that is no Pages link: to the
    metadata API as a gist, a repository or a user, unless its path is
    empty. *)
Lemma checkGitHub_routes link parsed :
  url_Parse link = Some parsed ->
  strings.Contains link "github.io" = false ->
  let seg := strings.Trim (url.Path parsed) "/" in
  (seg = "" /\ forall w, checkGitHub link w
               = (Returns {| Type_ := "github"; Status := "invalid_url"; URL := link; SourcePage := "" |}, []))
  \/ (seg <> "" /\ exists entityType api,
        In entityType ["gist"; "repo"; "user"]
        /\ forall w, checkGitHub link w = githubAPIRequest entityType api link w).
Proof.
  intros Hp Hio seg. unfold checkGitHub. rewrite Hp, Hio. fold seg.
  pose proof (Split_nonempty seg "/") as Hne.
  destruct (strings.Split seg "/") as [|p [|q rest]] eqn:E; [contradiction| |].
  - apply Split_single in E. subst p.
    rewrite andb_false_r. cbn [List.length Nat.leb Nat.eqb nth andb].
    destruct (String.eqb_spec seg "") as [Heq|Hneq]; cbn [negb].
    + left. split; [exact Heq | reflexivity].
    + right. split; [exact Hneq|]. exists "user", ("https://api.github.com/users/" ++ seg)%string.
      split; [cbn; tauto|]. intros w. unfold at_index. cbn [nth_error].
      rewrite bind_ret. reflexivity.
  - right. split.
    + intros Heq. rewrite Heq in E. discriminate E.
    + cbn [List.length Nat.leb]. rewrite andb_true_r.
      destruct (strings.Contains link "gist.github.com").
      * unfold at_index.
        destruct (nth_error (p :: q :: rest) (S (S (List.length rest)) - 1)) as [id|] eqn:Hid.
        -- exists "gist", ("https://api.github.com/gists/" ++ id)%string.
           split; [cbn; tauto | intros w; rewrite bind_ret; reflexivity].
        -- apply nth_error_None in Hid. cbn in Hid. lia.
      * exists "repo", ("https://api.github.com/repos/" ++ p ++ "/" ++ q)%string.
        split; [cbn; tauto|]. intros w. unfold at_index. cbn [nth_error].
        rewrite bind_ret. rewrite bind_ret. reflexivity.
Qed.

(** C1, as the code has it: a link on the gist host (and not on the Pages
    domain) that parses and whose trimmed path has fewer than two segments
    gets the verdict [github]/[invalid_url], with no request sent, when that
    path is empty; when it is one segment the link is handed to the user
    metadata API with that segment. *)
Theorem C1_gist_without_id_segment :
  forall link parsed w,
    url_Parse link = Some parsed ->
    strings.Contains link "gist.github.com" = true ->
    strings.Contains link "github.io" = false ->
    (List.length (strings.Split (strings.Trim (url.Path parsed) "/") "/") < 2)%nat ->
    (strings.Trim (url.Path parsed) "/" = "" ->
       checkGitHub link w
       = (Returns {| Type_ := "github"; Status := "invalid_url"; URL := link; SourcePage := "" |}, []))
    /\ (strings.Trim (url.Path parsed) "/" <> "" ->
       checkGitHub link w
       = githubAPIRequest "user"
           ("https://api.github.com/users/" ++ strings.Trim (url.Path parsed) "/") link w).
Proof.
  intros link parsed w Hp Hgist Hio Hlen.
  apply Split_short in Hlen.
  unfold checkGitHub. rewrite Hp, Hio, Hgist, Hlen.
  cbn [List.length Nat.leb Nat.eqb nth andb].
  split; intros Hseg.
  - rewrite Hseg. reflexivity.
  - destruct (String.eqb_spec (strings.Trim (url.Path parsed) "/") ""); [contradiction|].
    cbn [negb]. unfold at_index. cbn [nth_error]. rewrite bind_ret. reflexivity.
Qed.

(** C2: for a link that contains [github.io], whatever its path, every
    verdict the dispatcher returns has the kind [github_pages], never
    [repo], and it returns one whenever the link parses: the dispatcher
    sends the link to [checkGitHub], which tests the Pages pattern before
    the gist, repository and user branches. *)
Theorem C2_pages_before_repo :
  forall link w,
    strings.Contains link "github.io" = true ->
    (forall parsed,
        url_Parse link = Some parsed ->
        exists r sent,
          detectService link w = (Returns r, sent) /\ Type_ r = "github_pages")
    /\ (forall r sent,
          detectService link w = (Returns r, sent) ->
          Type_ r = "github_pages" /\ Type_ r <> "repo").
Proof.
  intros link w Hio.
  assert (Hrun : detectService link w = checkGitHub link w).
  { unfold detectService. rewrite Hio, orb_true_r. reflexivity. }
  rewrite Hrun. unfold checkGitHub. rewrite Hio.
  destruct (url_Parse link) as [parsed|] eqn:Hp.
  - unfold httpClient_Get. rewrite (NewRequest_parsed "GET" link parsed Hp). run_io.
    destruct (transport w _) as [resp|]; [destruct (strings.Contains (http.Body resp) _)|];
      (split; [intros ? _; eexists; eexists; split; reflexivity
              | intros r sent [= <- _]; cbn; split; [reflexivity | discriminate]]).
  - split; [discriminate | intros r sent [=]].
Qed.

(** C8: for a link that parses and contains [github.io] the prober sends
    one request, the GET of the link itself that [http.NewRequest] builds,
    and answers [github_pages] with [connection_error] when the call fails,
    [possible_takeover] exactly when the body holds the Pages placeholder
    text, and [ok] otherwise. *)
Theorem C8_pages_probe :
  forall link parsed w,
    url_Parse link = Some parsed ->
    strings.Contains link "github.io" = true ->
    exists req r,
      http_NewRequest "GET" link = Some req
      /\ http.Method req = "GET" /\ url.Path (http.URL req) = url.Path parsed
      /\ checkGitHub link w = (Returns r, [req])
      /\ Type_ r = "github_pages" /\ URL r = link
      /\ (transport w req = None -> Status r = "connection_error")
      /\ (forall resp,
            transport w req = Some resp ->
            (Status r = "possible_takeover"
             <-> strings.Contains (http.Body resp) "There isn't a GitHub Pages site here." = true)
            /\ (strings.Contains (http.Body resp) "There isn't a GitHub Pages site here." = false ->
                Status r = "ok")).
Proof.
  intros link parsed w Hp Hio.
  exists (http.newRequest "GET" parsed).
  unfold checkGitHub. rewrite Hp, Hio.
  unfold httpClient_Get. rewrite (NewRequest_parsed "GET" link parsed Hp). run_io.
  destruct (transport w _) as [resp|].
  - destruct (strings.Contains (http.Body resp) _) eqn:Hbody.
    + eexists. do 3 (split; [reflexivity|]). split; [reflexivity|]. cbn [Type_ URL Status].
      split; [reflexivity|]. split; [reflexivity|]. split; [discriminate|].
      intros resp' [= <-]. rewrite Hbody. split; [tauto | discriminate].
    + eexists. do 3 (split; [reflexivity|]). split; [reflexivity|]. cbn [Type_ URL Status].
      split; [reflexivity|]. split; [reflexivity|]. split; [discriminate|].
      intros resp' [= <-]. rewrite Hbody. split; [|reflexivity].
      split; discriminate.
  - eexists. do 3 (split; [reflexivity|]). split; [reflexivity|]. cbn [Type_ URL Status].
    split; [reflexivity|]. split; [reflexivity|]. split; [reflexivity | discriminate].
Qed.

(** The code-forge prober panics on a link [url.Parse] rejects, and on a
    link whose metadata address [http.NewRequest] rejects. *)
Lemma checkGitHub_panics_unparsed link w :
  url_Parse link = None -> checkGitHub link w = (Panics, []).
Proof. intros H. unfold checkGitHub. now rewrite H. Qed.

Lemma githubAPIRequest_panics entityType api link w :
  url_Parse api = None -> githubAPIRequest entityType api link w = (Panics, []).
Proof. intros H. unfold githubAPIRequest, http_NewRequest. now rewrite H. Qed.

(** So does the dispatcher, on a link of the code forge. *)
Lemma detectService_panics_unparsed link w :
  strings.Contains link "github.com" = true ->
  url_Parse link = None ->
  detectService link w = (Panics, []).
Proof.
  intros Hgh Hp. unfold detectService. rewrite Hgh. cbn [orb].
  now apply checkGitHub_panics_unparsed.
Qed.

Lemma detectService_panics_user link parsed w :
  strings.Contains link "github.com" = true ->
  strings.Contains link "github.io" = false ->
  url_Parse link = Some parsed ->
  (List.length (strings.Split (strings.Trim (url.Path parsed) "/") "/") < 2)%nat ->
  strings.Trim (url.Path parsed) "/" <> "" ->
  url_Parse ("https://api.github.com/users/" ++ strings.Trim (url.Path parsed) "/") = None ->
  detectService link w = (Panics, []).
Proof.
  intros Hgh Hio Hp Hlen Hseg Hapi. unfold detectService. rewrite Hgh. cbn [orb].
  apply Split_short in Hlen. unfold checkGitHub. rewrite Hp, Hio, Hlen.
  rewrite andb_false_r. cbn [List.length Nat.leb Nat.eqb nth andb].
  destruct (String.eqb_spec (strings.Trim (url.Path parsed) "/") ""); [contradiction|].
  cbn [negb]. unfold at_index. cbn [nth_error]. rewrite bind_ret.
  now apply githubAPIRequest_panics.
Qed.

(** *** The dispatcher *)

Lemma githubAPIRequest_kind entityType api link :
  exists kind, forall w,
    kindOf (fst (githubAPIRequest entityType api link w)) = kind
    /\ (kind = None \/ kind = Some entityType).
Proof.
  destruct (http_NewRequest "GET" api) as [req0|] eqn:Hreq.
  - exists (Some entityType). intros w.
    destruct (githubAPIRequest_run entityType api link w req0 Hreq)
      as (req & r & Hrun & _ & Hty & _).
    rewrite Hrun. cbn. rewrite Hty. split; [reflexivity | now right].
  - exists None. intros w. unfold githubAPIRequest. rewrite Hreq.
    split; [reflexivity | now left].
Qed.

(** Whether [checkGitHub] returns, and with which kind, is settled by the
    text of the link. *)
Lemma checkGitHub_kind link :
  exists kind, forall w,
    kindOf (fst (checkGitHub link w)) = kind
    /\ (kind = None
        \/ In kind [Some "github_pages"; Some "gist"; Some "repo"; Some "user"; Some "github"]).
Proof.
  destruct (url_Parse link) as [parsed|] eqn:Hp.
  - destruct (strings.Contains link "github.io") eqn:Hio.
    + exists (Some "github_pages"). intros w.
      unfold checkGitHub. rewrite Hp, Hio.
      unfold httpClient_Get. rewrite (NewRequest_parsed "GET" link parsed Hp). run_io.
      destruct (transport w _) as [resp|];
        [destruct (strings.Contains (http.Body resp) _)|]; cbn; (split; [reflexivity | right; cbn; tauto]).
    + destruct (checkGitHub_routes link parsed Hp Hio)
        as [[_ Hrun]|[_ (e & a & Hin & Hroute)]].
      * exists (Some "github"). intros w.
        rewrite Hrun. cbn. split; [reflexivity | right; cbn; tauto].
      * destruct (githubAPIRequest_kind e a link) as (kind & Hkind).
        exists kind. intros w. rewrite Hroute.
        destruct (Hkind w) as [Hk [Hnone|Hsome]]; (split; [exact Hk|]).
        -- now left.
        -- right. subst kind. cbn in Hin.
           destruct Hin as [<-|[<-|[<-|[]]]]; cbn; auto 10.
  - exists None. intros w. unfold checkGitHub. rewrite Hp. split; [reflexivity | now left].
Qed.

Lemma checkS3_answers : answers checkS3 "s3".
Proof.
  intros link w. unfold checkS3, httpClient_Get.
  destruct (http_NewRequest "GET" link); run_io;
    [destruct (transport w _) as [resp|]; [destruct (strings.Contains _ _)|]|];
    eexists; eexists; repeat split; reflexivity.
Qed.

Lemma checkHeroku_answers : answers checkHeroku "heroku".
Proof.
  intros link w. unfold checkHeroku, httpClient_Get.
  destruct (http_NewRequest "GET" link); run_io;
    [destruct (transport w _) as [resp|]; [destruct (strings.Contains _ _)|]|];
    eexists; eexists; repeat split; reflexivity.
Qed.

Lemma checkVercel_answers : answers checkVercel "vercel".
Proof.
  intros link w. unfold checkVercel, httpClient_Get.
  destruct (http_NewRequest "GET" link); run_io;
    [destruct (transport w _) as [resp|]; [destruct (_ && _)|]|];
    eexists; eexists; repeat split; reflexivity.
Qed.

Lemma checkNetlify_answers : answers checkNetlify "netlify".
Proof.
  intros link w. unfold checkNetlify, httpClient_Get.
  destruct (http_NewRequest "GET" link); run_io;
    [destruct (transport w _) as [resp|]; [destruct (_ && _)|]|];
    eexists; eexists; repeat split; reflexivity.
Qed.

Lemma checkWix_answers : answers checkWix "wix".
Proof.
  intros link w. unfold checkWix, httpClient_Get.
  destruct (http_NewRequest "GET" link); run_io;
    [destruct (transport w _) as [resp|]; [destruct (_ || _)|]|];
    eexists; eexists; repeat split; reflexivity.
Qed.

Lemma checkTumblr_answers : answers checkTumblr "tumblr".
Proof.
  intros link w. unfold checkTumblr, httpClient_Get.
  destruct (http_NewRequest "GET" link); run_io;
    [destruct (transport w _) as [resp|]; [destruct (_ || _)|]|];
    eexists; eexists; repeat split; reflexivity.
Qed.

Lemma checkShopify_answers : answers checkShopify "shopify".
Proof.
  intros link w. unfold checkShopify, httpClient_Get.
  destruct (http_NewRequest "GET" link); run_io;
    [destruct (transport w _) as [resp|]; [destruct (_ || _)|]|];
    eexists; eexists; repeat split; reflexivity.
Qed.

Lemma checkChromeExtension_answers : answers checkChromeExtension "chrome_ext".
Proof.
  intros link w. unfold checkChromeExtension.
  destruct (url_Parse link) as [u|]; [|eexists; eexists; repeat split; reflexivity].
  destruct (strings.Split (strings.Trim (url.Path u) "/") "/") as [|p [|q rest]] eqn:E;
    cbn [List.length Nat.ltb Nat.leb];
    try (eexists; eexists; repeat split; reflexivity).
  unfold at_index.
  destruct (nth_error (p :: q :: rest) (S (S (List.length rest)) - 1)) as [extID|] eqn:Hid.
  - rewrite bind_ret. unfold httpClient_Get.
    destruct (http_NewRequest "GET" _); run_io;
      [destruct (transport w _) as [resp|]; [destruct (_ || _)|]|];
      eexists; eexists; repeat split; reflexivity.
  - apply nth_error_None in Hid. cbn in Hid. lia.
Qed.

(** The dispatcher hands the link to the code-forge prober, or to a
    prober that always answers with its own kind, or skips it. *)
Lemma detectService_cases link :
  (forall w, detectService link w = checkGitHub link w)
  \/ (exists check kind,
        answers check kind
        /\ In kind ["s3"; "heroku"; "vercel"; "netlify"; "chrome_ext"; "wix"; "tumblr"; "shopify"]
        /\ forall w, detectService link w = check link w)
  \/ (forall w, detectService link w
                = (Returns {| Type_ := "unknown"; Status := "skipped"; URL := link; SourcePage := "" |}, [])).
Proof.
  unfold detectService.
  destruct (strings.Contains link "github.com" || strings.Contains link "github.io"
            || strings.Contains link "gist.github.com"); [now left|].
  right.
  destruct (strings.Contains link ".s3.amazonaws.com");
    [left; exists checkS3, "s3"; split; [apply checkS3_answers | split; [cbn; tauto | reflexivity]]|].
  destruct (strings.Contains link "herokuapp.com");
    [left; exists checkHeroku, "heroku"; split; [apply checkHeroku_answers | split; [cbn; tauto | reflexivity]]|].
  destruct (strings.Contains link ".vercel.app");
    [left; exists checkVercel, "vercel"; split; [apply checkVercel_answers | split; [cbn; tauto | reflexivity]]|].
  destruct (strings.Contains link ".netlify.app");
    [left; exists checkNetlify, "netlify"; split; [apply checkNetlify_answers | split; [cbn; tauto | reflexivity]]|].
  destruct (strings.Contains link "chrome.google.com/webstore/detail/");
    [left; exists checkChromeExtension, "chrome_ext";
     split; [apply checkChromeExtension_answers | split; [cbn; tauto | reflexivity]]|].
  destruct (strings.Contains link ".wixsite.com");
    [left; exists checkWix, "wix"; split; [apply checkWix_answers | split; [cbn; tauto | reflexivity]]|].
  destruct (strings.Contains link ".tumblr.com");
    [left; exists checkTumblr, "tumblr"; split; [apply checkTumblr_answers | split; [cbn; tauto | reflexivity]]|].
  destruct (strings.Contains link ".myshopify.com");
    [left; exists checkShopify, "shopify"; split; [apply checkShopify_answers | split; [cbn; tauto | reflexivity]]|].
  now right.
Qed.

(** Whether the dispatcher returns for a link, and the kind it assigns, do
    not depend on the world: not on the responses, not on the credential. *)
Lemma detectService_kind link :
  exists kind, forall w, kindOf (fst (detectService link w)) = kind.
Proof.
  destruct (detectService_cases link) as [Hgh|[(check & kind & Hans & _ & Hrun)|Hskip]].
  - destruct (checkGitHub_kind link) as (kind & Hkind).
    exists kind. intros w. rewrite Hgh. apply Hkind.
  - exists (Some kind). intros w. rewrite Hrun.
    destruct (Hans link w) as (r & sent & -> & <- & _). reflexivity.
  - exists (Some "unknown"). intros w. now rewrite Hskip.
Qed.

(** The kind [unknown] comes from the default case alone, where no prober
    runs and nothing is sent. *)
Lemma detectService_unknown link w r sent :
  detectService link w = (Returns r, sent) ->
  Type_ r = "unknown" ->
  sent = [] /\ r = {| Type_ := "unknown"; Status := "skipped"; URL := link; SourcePage := "" |}.
Proof.
  intros Hrun Hty.
  destruct (detectService_cases link) as [Hgh|[(check & kind & Hans & Hin & Hcheck)|Hskip]].
  - rewrite Hgh in Hrun. destruct (checkGitHub_kind link) as (kind & Hkind).
    destruct (Hkind w) as [Hk Hcases]. rewrite Hrun in Hk. cbn in Hk. rewrite Hty in Hk.
    subst kind. cbn in Hcases.
    destruct Hcases as [H|[H|[H|[H|[H|[H|[]]]]]]]; discriminate H.
  - rewrite Hcheck in Hrun. destruct (Hans link w) as (r' & sent' & Hr & Hk & _).
    rewrite Hr in Hrun. injection Hrun as -> ->. rewrite Hty in Hk. subst kind.
    cbn in Hin. destruct Hin as [H|[H|[H|[H|[H|[H|[H|[H|[]]]]]]]]]; discriminate H.
  - rewrite Hskip in Hrun. injection Hrun as <- <-. now split.
Qed.

(** *** Link extraction and the worker's inner loop *)

Lemma extractLinks_returns site w : exists links, fst (extractLinks site w) = Returns links.
Proof.
  unfold extractLinks, httpClient_Get.
  destruct (http_NewRequest "GET" site); run_io;
    [destruct (transport w _)|]; eexists; reflexivity.
Qed.

Lemma extractLinks_linksOf site w : fst (extractLinks site w) = Returns (linksOf w site).
Proof.
  unfold linksOf. destruct (extractLinks_returns site w) as [links ->]. reflexivity.
Qed.

(** A failed fetch of the site's page yields no links. *)
Lemma extractLinks_failed site w :
  fst (httpClient_Get site w) = Returns None -> fst (extractLinks site w) = Returns [].
Proof.
  unfold extractLinks, bind. destruct (httpClient_Get site w) as [o sent]. cbn.
  now intros ->.
Qed.

(** What the worker sends is never [unknown] and names the site. *)
Lemma probeLink_sends site l w r :
  fst (probeLink site l w) = Returns (Some r) ->
  Type_ r <> "unknown" /\ SourcePage r = site.
Proof.
  unfold probeLink, bind.
  destruct (detectService l w) as [[r0|] sent]; [|cbn; discriminate].
  run_io. cbn [Type_].
  destruct (String.eqb_spec (Type_ r0) "unknown") as [Heq|Hneq]; cbn; [discriminate|].
  intros [= <-]. cbn. now split.
Qed.

Lemma sentFor_sends w site links r :
  In r (sentFor w site links) -> Type_ r <> "unknown" /\ SourcePage r = site.
Proof.
  unfold sentFor. rewrite in_flat_map. intros (l & _ & Hin).
  destruct (fst (probeLink site l w)) as [[r'|]|] eqn:E; cbn in Hin; try contradiction.
  destruct Hin as [<-|[]]. now apply probeLink_sends in E.
Qed.

Lemma expected_sends w sites r :
  In r (expected w sites) ->
  Type_ r <> "unknown" /\ In (SourcePage r) sites /\ In r (siteVerdicts w (SourcePage r)).
Proof.
  unfold expected. rewrite in_flat_map. intros (site & Hsite & Hin).
  destruct (sentFor_sends w site _ r Hin) as [Hty Hsrc]. subst site. now repeat split.
Qed.

(** *** The scheduler *)

Lemma reaches_trans w c1 c2 c3 : reaches w c1 c2 -> reaches w c2 c3 -> reaches w c1 c3.
Proof.
  induction 1 as [c|a b c Hstep _ IH]; intros H23; [exact H23|].
  eapply reaches_step; [exact Hstep | now apply IH].
Qed.

Lemma reaches_one w c1 c2 : step w c1 c2 -> reaches w c1 c2.
Proof. intros H. eapply reaches_step; [exact H | apply reaches_refl]. Qed.

Lemma owed_middle w ws1 g ws2 :
  flat_map (owed w) (ws1 ++ g :: ws2)
  = flat_map (owed w) ws1 ++ owed w g ++ flat_map (owed w) ws2.
Proof. rewrite flat_map_app. reflexivity. Qed.

Lemma owed_finished w ws :
  Forall (fun g => g = Finished) ws -> flat_map (owed w) ws = [].
Proof.
  induction 1 as [|g ws Hg _ IH]; [reflexivity|]. subst g. exact IH.
Qed.

Lemma finished_stays ws1 ws2 (g g' : goroutine) :
  g' <> Finished -> In Finished (ws1 ++ g' :: ws2) -> In Finished (ws1 ++ g :: ws2).
Proof.
  intros Hne. rewrite !in_app_iff. cbn.
  intros [H|[H|H]]; [now left | now destruct Hne | right; now right].
Qed.

Lemma length_middle (ws1 ws2 : list goroutine) g g' :
  List.length (ws1 ++ g' :: ws2) = List.length (ws1 ++ g :: ws2).
Proof. rewrite !length_app. reflexivity. Qed.

(** Every move keeps the account of verdicts balanced. *)
Lemma step_sound w n sites c c' :
  sound w n sites c -> step w c c' -> sound w n sites c'.
Proof.
  intros Hs Hstep.
  destruct Hstep as [p site rest Hu | p Hu Hc | p ws1 ws2 site rest Hw Hj
                    | p ws1 ws2 Hw Hj Hc | p ws1 ws2 site l links Hw
                    | p ws1 ws2 r site links Hw Hroom | p ws1 ws2 site Hw
                    | p r rest Hc Hr | p Hc Hall Hr];
    destruct Hs as (Hperm & [Hd1 Hd2] & Hlen); unfold accounted in Hperm.
  - (* enqueue *)
    split; [|split]; cbn.
    + unfold accounted; cbn. rewrite Hu in Hperm. rewrite <- app_assoc. exact Hperm.
    + split; cbn.
      * intros Hc. apply Hd1 in Hc. congruence.
      * intros Hf. destruct (Hd2 Hf) as [Hc _]. apply Hd1 in Hc. congruence.
    + exact Hlen.
  - (* close *)
    split; [|split]; cbn.
    + unfold accounted; cbn. rewrite Hu in Hperm. exact Hperm.
    + split; cbn; [reflexivity|].
      intros Hf. destruct (Hd2 Hf) as [Hc' _]. congruence.
    + exact Hlen.
  - (* receive *)
    rewrite extractLinks_linksOf. split; [|split]; cbn.
    + unfold accounted; cbn.
      rewrite Hw, Hj in Hperm. rewrite owed_middle in *. cbn in Hperm.
      etransitivity; [|exact Hperm].
      do 2 apply Permutation_app_head. rewrite <- !app_assoc.
      apply Permutation_app_head. apply Permutation_app_swap_app.
    + split; cbn; [exact Hd1|].
      intros Hf. apply (finished_stays ws1 ws2 Waiting) in Hf; [|discriminate].
      rewrite <- Hw in Hf. destruct (Hd2 Hf) as [_ Hj']. congruence.
    + rewrite <- Hlen, Hw. apply length_middle.
  - (* leave *)
    split; [|split]; cbn.
    + unfold accounted; cbn. rewrite Hw in Hperm. rewrite owed_middle in *. exact Hperm.
    + split; cbn; [exact Hd1 | intros _; now split].
    + rewrite <- Hlen, Hw. apply length_middle.
  - (* probe *)
    rewrite Hw in Hperm. rewrite owed_middle in Hperm.
    unfold owed at 2 in Hperm. unfold sentFor in Hperm. cbn [flat_map] in Hperm.
    fold (sentFor w site links) in Hperm.
    assert (Hfin : forall g', g' <> Finished ->
               In Finished (ws1 ++ g' :: ws2) -> closed p = true /\ jobs p = []).
    { intros g' Hg Hf. apply Hd2. rewrite Hw. revert Hf. now apply finished_stays. }
    destruct (fst (probeLink site l w)) as [[r|]|]; [| |exact I].
    + split; [|split]; cbn.
      * unfold accounted; cbn. rewrite owed_middle. exact Hperm.
      * split; cbn; [exact Hd1 | apply Hfin; discriminate].
      * rewrite <- Hlen, Hw. apply length_middle.
    + split; [|split]; cbn.
      * unfold accounted; cbn. rewrite owed_middle. exact Hperm.
      * split; cbn; [exact Hd1 | apply Hfin; discriminate].
      * rewrite <- Hlen, Hw. apply length_middle.
  - (* send *)
    split; [|split]; cbn.
    + unfold accounted; cbn. rewrite Hw in Hperm. rewrite owed_middle in *. cbn in Hperm.
      etransitivity; [|exact Hperm].
      apply Permutation_app_head.
      repeat (rewrite <- app_assoc || rewrite <- app_comm_cons). apply Permutation_app_head.
      cbn [app]. apply Permutation_middle.
    + split; cbn; [exact Hd1|].
      intros Hf. apply Hd2. rewrite Hw. revert Hf. apply finished_stays. discriminate.
    + rewrite <- Hlen, Hw. apply length_middle.
  - (* next *)
    split; [|split]; cbn.
    + unfold accounted; cbn. rewrite Hw in Hperm. rewrite owed_middle in *. exact Hperm.
    + split; cbn; [exact Hd1|].
      intros Hf. apply Hd2. rewrite Hw. revert Hf. apply finished_stays. discriminate.
    + rewrite <- Hlen, Hw. apply length_middle.
  - (* collect *)
    split; [|split]; cbn.
    + unfold accounted; cbn. rewrite Hr in Hperm. rewrite <- app_assoc. exact Hperm.
    + split; cbn; assumption.
    + exact Hlen.
  - (* done *)
    cbn. exists (flat_map (siteVerdicts w) (jobs p ++ unsent p)). split.
    + rewrite Hr, (owed_finished w _ Hall) in Hperm. exact Hperm.
    + intros Hn. destruct (workers p) as [|g ws] eqn:Ews; [cbn in Hlen; congruence|].
      assert (Hg : g = Finished) by (inversion Hall; assumption). subst g.
      destruct (Hd2 (or_introl eq_refl)) as [Hcl Hj]. rewrite Hj, (Hd1 Hcl). reflexivity.
Qed.

(** A run that has crashed or finished makes no further move. *)
Lemma stuck_unless_running w c c' :
  reaches w c c' -> (forall p, c <> Running p) -> c' = c.
Proof.
  intros [c0|c1 c2 c3 Hstep _] Hc; [reflexivity|].
  destruct Hstep; now destruct (Hc p).
Qed.

Lemma reaches_sound w n sites c c' :
  sound w n sites c -> reaches w c c' -> sound w n sites c'.
Proof.
  intros Hs Hr. induction Hr as [c|c1 c2 c3 Hstep _ IH]; [exact Hs|].
  apply IH. eapply step_sound; eassumption.
Qed.

Lemma start_sound w n sites : sound w n sites (start n sites).
Proof.
  unfold start, sound, accounted, drained. cbn. split; [|split].
  - assert (H : flat_map (owed w) (repeat Waiting n) = []).
    { induction n as [|k IH]; [reflexivity | exact IH]. }
    rewrite H. reflexivity.
  - split; [discriminate|]. intros Hf. apply repeat_spec in Hf. discriminate.
  - apply repeat_length.
Qed.

(** Whatever [main] collects was sent by a worker for one of the sites. *)
Lemma collected_sound w n sites rs :
  reaches w (start n sites) (Collected rs) -> incl rs (expected w sites).
Proof.
  intros Hr. pose proof (reaches_sound w n sites _ _ (start_sound w n sites) Hr) as Hs.
  destruct Hs as (rest & Hperm & _). intros r Hin.
  eapply Permutation_in; [exact Hperm|]. apply in_or_app. now left.
Qed.

(** With at least one worker, [main] collects every verdict exactly once. *)
Lemma collected_complete w n sites rs :
  n <> 0%nat -> reaches w (start n sites) (Collected rs) ->
  Permutation rs (expected w sites).
Proof.
  intros Hn Hr. pose proof (reaches_sound w n sites _ _ (start_sound w n sites) Hr) as Hs.
  destruct Hs as (rest & Hperm & Hrest). rewrite (Hrest Hn), app_nil_r in Hperm. exact Hperm.
Qed.

(** *** A run exists: one worker at a time *)

Lemma enqueue_all w ws : forall us js,
  reaches w
    (Running {| unsent := us; closed := false; jobs := js; workers := ws;
                resultsChan := []; results := [] |})
    (Running {| unsent := []; closed := true; jobs := js ++ us; workers := ws;
                resultsChan := []; results := [] |}).
Proof.
  induction us as [|site us IH]; intros js.
  - rewrite app_nil_r. apply reaches_one.
    apply (step_close w {| unsent := []; closed := false; jobs := js; workers := ws;
                           resultsChan := []; results := [] |}); reflexivity.
  - eapply reaches_step.
    + apply (step_enqueue w {| unsent := site :: us; closed := false; jobs := js; workers := ws;
                               resultsChan := []; results := [] |} site us). reflexivity.
    + cbn. replace (js ++ site :: us) with ((js ++ [site]) ++ us)
        by (rewrite <- app_assoc; reflexivity).
      apply IH.
Qed.

Lemma scan_links w site ws2 js : forall links rs,
  (forall l, In l links -> fst (probeLink site l w) <> Panics) ->
  reaches w
    (Running {| unsent := []; closed := true; jobs := js;
                workers := Scanning site links :: ws2; resultsChan := []; results := rs |})
    (Running {| unsent := []; closed := true; jobs := js;
                workers := Scanning site [] :: ws2; resultsChan := [];
                results := rs ++ sentFor w site links |}).
Proof.
  induction links as [|l links IH]; intros rs Hsafe.
  - cbn. rewrite app_nil_r. apply reaches_refl.
  - eapply reaches_step.
    + apply (step_probe w {| unsent := []; closed := true; jobs := js;
                             workers := Scanning site (l :: links) :: ws2;
                             resultsChan := []; results := rs |} [] ws2 site l links).
      reflexivity.
    + assert (Hl : fst (probeLink site l w) <> Panics) by (apply Hsafe; now left).
      assert (Hrest : forall l', In l' links -> fst (probeLink site l' w) <> Panics)
        by (intros l' Hin; apply Hsafe; now right).
      unfold sentFor. cbn [flat_map]. fold (sentFor w site links).
      destruct (fst (probeLink site l w)) as [[r|]|]; [| |contradiction]; cbn.
      * eapply reaches_step.
        { apply (step_send w {| unsent := []; closed := true; jobs := js;
                                workers := Sending r site links :: ws2;
                                resultsChan := []; results := rs |} [] ws2 r site links);
            [reflexivity | cbn; unfold resultsCap; lia]. }
        cbn. eapply reaches_step.
        { apply (step_collect w {| unsent := []; closed := true; jobs := js;
                                   workers := Scanning site links :: ws2;
                                   resultsChan := [r]; results := rs |} r []); reflexivity. }
        cbn. replace (rs ++ r :: sentFor w site links) with ((rs ++ [r]) ++ sentFor w site links)
          by (rewrite <- app_assoc; reflexivity).
        apply IH. exact Hrest.
      * apply IH. exact Hrest.
Qed.

Lemma run_sites w ws2 : forall js rs,
  (forall site l, In site js -> In l (linksOf w site) -> fst (probeLink site l w) <> Panics) ->
  reaches w
    (Running {| unsent := []; closed := true; jobs := js;
                workers := Waiting :: ws2; resultsChan := []; results := rs |})
    (Running {| unsent := []; closed := true; jobs := [];
                workers := Waiting :: ws2; resultsChan := [];
                results := rs ++ flat_map (siteVerdicts w) js |}).
Proof.
  induction js as [|site js IH]; intros rs Hsafe.
  - cbn. rewrite app_nil_r. apply reaches_refl.
  - eapply reaches_step.
    + apply (step_receive w {| unsent := []; closed := true; jobs := site :: js;
                               workers := Waiting :: ws2; resultsChan := []; results := rs |}
               [] ws2 site js); reflexivity.
    + rewrite extractLinks_linksOf. cbn.
      eapply reaches_trans.
      { apply scan_links. intros l Hl. apply Hsafe; [now left | exact Hl]. }
      eapply reaches_step.
      { apply (step_next w {| unsent := []; closed := true; jobs := js;
                              workers := Scanning site [] :: ws2; resultsChan := [];
                              results := rs ++ sentFor w site (linksOf w site) |} [] ws2 site).
        reflexivity. }
      cbn. fold (siteVerdicts w site). rewrite app_assoc.
      apply IH. intros site' l Hs Hl. apply Hsafe; [now right | exact Hl].
Qed.

Lemma leave_all w rs : forall m k,
  reaches w
    (Running {| unsent := []; closed := true; jobs := [];
                workers := repeat Finished k ++ repeat Waiting m;
                resultsChan := []; results := rs |})
    (Running {| unsent := []; closed := true; jobs := [];
                workers := repeat Finished (k + m); resultsChan := []; results := rs |}).
Proof.
  induction m as [|m IH]; intros k.
  - cbn. rewrite app_nil_r, Nat.add_0_r. apply reaches_refl.
  - eapply reaches_step.
    + apply (step_leave w {| unsent := []; closed := true; jobs := [];
                             workers := repeat Finished k ++ repeat Waiting (S m);
                             resultsChan := []; results := rs |}
               (repeat Finished k) (repeat Waiting m)); reflexivity.
    + cbn.
      replace (repeat Finished k ++ Finished :: repeat Waiting m)
        with (repeat Finished (S k) ++ repeat Waiting m).
      * rewrite Nat.add_succ_r. apply (IH (S k)).
      * cbn [repeat]. rewrite repeat_cons, <- app_assoc. reflexivity.
Qed.

(** With at least one worker and no panicking link, the program can run to
    the end of the collecting loop, and holds every verdict of every
    site. *)
Lemma sequential_run w n sites :
  n <> 0%nat -> panicFree w sites ->
  reaches w (start n sites) (Collected (expected w sites)).
Proof.
  intros Hn Hsafe. destruct n as [|m]; [contradiction|].
  unfold start. cbn [repeat].
  eapply reaches_trans; [apply enqueue_all|]. cbn [app].
  eapply reaches_trans; [apply run_sites; exact Hsafe|]. cbn [app].
  eapply reaches_trans; [apply (leave_all w _ (S m) 0)|]. cbn [Nat.add].
  apply reaches_one.
  apply (step_done w {| unsent := []; closed := true; jobs := [];
                        workers := repeat Finished (S m); resultsChan := [];
                        results := expected w sites |}); try reflexivity.
  cbn [workers]. apply Forall_forall. intros g Hg. now apply repeat_spec in Hg.
Qed.

(** A panic while probing ends the whole run. *)
Lemma crash_run w n site sites l :
  hd_error (linksOf w site) = Some l ->
  fst (probeLink site l w) = Panics ->
  reaches w (start (S n) (site :: sites)) Crashed.
Proof.
  intros Hl Hp. unfold start. cbn [repeat].
  eapply reaches_step.
  { apply (step_enqueue w {| unsent := site :: sites; closed := false; jobs := [];
                             workers := Waiting :: repeat Waiting n;
                             resultsChan := []; results := [] |} site sites). reflexivity. }
  cbn. eapply reaches_step.
  { apply (step_receive w {| unsent := sites; closed := false; jobs := [site];
                             workers := Waiting :: repeat Waiting n;
                             resultsChan := []; results := [] |}
             [] (repeat Waiting n) site []); reflexivity. }
  rewrite extractLinks_linksOf.
  destruct (linksOf w site) as [|l' links]; [discriminate|]. injection Hl as ->.
  cbn. eapply reaches_step.
  { apply (step_probe w {| unsent := sites; closed := false; jobs := [];
                           workers := Scanning site (l :: links) :: repeat Waiting n;
                           resultsChan := []; results := [] |}
             [] (repeat Waiting n) site l links). reflexivity. }
  rewrite Hp. apply reaches_refl.
Qed.

(** *** Every run comes to an end *)

Lemma workers_all_or_one (ws : list goroutine) :
  Forall (fun g => g = Finished) ws
  \/ exists ws1 g ws2, ws = ws1 ++ g :: ws2 /\ g <> Finished.
Proof.
  induction ws as [|g ws IH]; [left; constructor|].
  destruct g as [|site links|r site links|];
    try (right; eexists [], _, ws; split; [reflexivity | discriminate]).
  destruct IH as [Hall|(ws1 & g & ws2 & -> & Hg)].
  - left. now constructor.
  - right. exists (Finished :: ws1), g, ws2. now split.
Qed.

(** A running configuration is never stuck: some goroutine can move. *)
Lemma step_progress w p : exists c, step w (Running p) c.
Proof.
  destruct (unsent p) as [|site rest] eqn:Hu;
    [|eexists; eapply step_enqueue; exact Hu].
  destruct (closed p) eqn:Hc; [|eexists; now apply step_close].
  destruct (resultsChan p) as [|r rest] eqn:Hr;
    [|eexists; eapply step_collect; [exact Hc | exact Hr]].
  destruct (workers_all_or_one (workers p)) as [Hall|(ws1 & g & ws2 & Hw & Hg)];
    [eexists; now apply step_done|].
  destruct g as [|site [|l links]|r site links|].
  - destruct (jobs p) as [|site rest] eqn:Hj.
    + eexists. now apply (step_leave w p ws1 ws2).
    + eexists. apply (step_receive w p ws1 ws2 site rest Hw Hj).
  - eexists. apply (step_next w p ws1 ws2 site Hw).
  - eexists. apply (step_probe w p ws1 ws2 site l links Hw).
  - eexists. apply (step_send w p ws1 ws2 r site links Hw).
    rewrite Hr. unfold resultsCap. cbn. lia.
  - contradiction.
Qed.

Lemma cost_middle ws1 g ws2 :
  list_sum (map cost (ws1 ++ g :: ws2))
  = (list_sum (map cost ws1) + cost g + list_sum (map cost ws2))%nat.
Proof.
  rewrite map_app, list_sum_app. cbn [map].
  change (list_sum (cost g :: map cost ws2)) with (cost g + list_sum (map cost ws2))%nat.
  lia.
Qed.

(** Every move uses up at least one of the moves left. *)
Lemma step_decreases w c c' : step w c c' -> (movesLeft w c' < movesLeft w c)%nat.
Proof.
  intros Hstep.
  destruct Hstep as [p site rest Hu | p Hu Hc | p ws1 ws2 site rest Hw Hj
                    | p ws1 ws2 Hw Hj Hc | p ws1 ws2 site l links Hw
                    | p ws1 ws2 r site links Hw Hroom | p ws1 ws2 site Hw
                    | p r rest Hc Hr | p Hc Hall Hr];
    try rewrite extractLinks_linksOf;
    try (destruct (fst (probeLink site l w)) as [[r|]|]);
    unfold movesLeft; cbn [unsent closed jobs workers resultsChan results setWorkers];
    rewrite ?Hu, ?Hc, ?Hw, ?Hj, ?Hr, ?map_app, ?list_sum_app, ?cost_middle, ?length_app;
    unfold siteCost, list_sum; cbn [map fold_right List.length cost]; lia.
Qed.

(** So every run can be carried on to a configuration that is no longer
    running, in at most [movesLeft] moves. *)
Lemma run_completes w : forall k c,
  (movesLeft w c <= k)%nat ->
  exists c', reaches w c c' /\ forall p, c' <> Running p.
Proof.
  induction k as [|k IH]; intros c Hk.
  - destruct c as [p| |rs]; [cbn in Hk; lia | |];
      (eexists; split; [apply reaches_refl | discriminate]).
  - destruct c as [p| |rs];
      [| eexists; split; [apply reaches_refl | discriminate]
       | eexists; split; [apply reaches_refl | discriminate]].
    destruct (step_progress w p) as [c1 Hstep].
    pose proof (step_decreases w _ _ Hstep) as Hlt.
    destruct (IH c1) as (c' & Hr & Hend); [lia|].
    exists c'. split; [eapply reaches_step; eassumption | exact Hend].
Qed.

Lemma onSites_middle w sites ws1 g g' ws2 :
  Forall (onSites w sites) (ws1 ++ g :: ws2) -> onSites w sites g' ->
  Forall (onSites w sites) (ws1 ++ g' :: ws2).
Proof.
  rewrite !Forall_app. intros [H1 H2] Hg. split; [exact H1|].
  inversion H2; subst. now constructor.
Qed.

Lemma onSites_at w sites ws1 g ws2 :
  Forall (onSites w sites) (ws1 ++ g :: ws2) -> onSites w sites g.
Proof. rewrite Forall_app. intros [_ H]. now inversion H. Qed.

(** Where no link of the sites makes its prober panic, no move crashes. *)
Lemma step_tame w sites c c' :
  panicFree w sites -> tame w sites c -> step w c c' -> tame w sites c'.
Proof.
  intros Hsafe Ht Hstep.
  destruct Hstep as [p site rest Hu | p Hu Hc | p ws1 ws2 site rest Hw Hj
                    | p ws1 ws2 Hw Hj Hc | p ws1 ws2 site l links Hw
                    | p ws1 ws2 r site links Hw Hroom | p ws1 ws2 site Hw
                    | p r rest Hc Hr | p Hc Hall Hr];
    try destruct Ht as (Hun & Hjobs & Hws); cbn.
  - rewrite Hu in Hun. split; [|split; [|exact Hws]].
    + intros x Hx. apply Hun. now right.
    + intros x Hx. apply in_app_or in Hx. destruct Hx as [Hx|[<-|[]]];
        [now apply Hjobs | apply Hun; now left].
  - split; [intros x []|]. now split.
  - rewrite extractLinks_linksOf. cbn. rewrite Hj in Hjobs. rewrite Hw in Hws.
    split; [exact Hun|]. split; [intros x Hx; apply Hjobs; now right|].
    eapply onSites_middle; [exact Hws|]. cbn. split; [apply Hjobs; now left | apply incl_refl].
  - rewrite Hw in Hws. split; [exact Hun|]. split; [exact Hjobs|].
    eapply onSites_middle; [exact Hws | exact I].
  - rewrite Hw in Hws. pose proof (onSites_at _ _ _ _ _ Hws) as [Hsite Hlinks].
    assert (Hl : fst (probeLink site l w) <> Panics).
    { apply Hsafe; [exact Hsite | apply Hlinks; now left]. }
    assert (Hrest : incl links (linksOf w site)) by (intros x Hx; apply Hlinks; now right).
    destruct (fst (probeLink site l w)) as [[r|]|]; [| |contradiction]; cbn;
      (split; [exact Hun|]); (split; [exact Hjobs|]);
      (eapply onSites_middle; [exact Hws | now split]).
  - rewrite Hw in Hws. split; [exact Hun|]. split; [exact Hjobs|].
    eapply onSites_middle; [exact Hws | exact (onSites_at _ _ _ _ _ Hws)].
  - rewrite Hw in Hws. split; [exact Hun|]. split; [exact Hjobs|].
    eapply onSites_middle; [exact Hws | exact I].
  - now repeat split.
  - exact I.
Qed.

Lemma reaches_tame w sites c c' :
  panicFree w sites -> tame w sites c -> reaches w c c' -> tame w sites c'.
Proof.
  intros Hsafe Ht Hr. induction Hr as [c|c1 c2 c3 Hstep _ IH]; [exact Ht|].
  apply IH. eapply step_tame; eassumption.
Qed.

Lemma start_tame w n sites : tame w sites (start n sites).
Proof.
  cbn. split; [apply incl_refl|]. split; [intros x []|].
  apply Forall_forall. intros g Hg. apply repeat_spec in Hg. now subst.
Qed.

(** X12: with at least one worker and no panicking link, every run from the
    start, however the goroutines are interleaved so far, can be carried
    on to the end of the collecting loop, and then holds every verdict of
    every site exactly once. *)
Lemma every_run_completes w n sites c :
  n <> 0%nat -> panicFree w sites -> reaches w (start n sites) c ->
  exists rs, reaches w c (Collected rs) /\ Permutation rs (expected w sites).
Proof.
  intros Hn Hsafe Hr.
  destruct (run_completes w (movesLeft w c) c (le_n _)) as (c' & Hrun & Hend).
  pose proof (reaches_trans w _ _ _ Hr Hrun) as Hall.
  pose proof (reaches_tame w sites _ _ Hsafe (start_tame w n sites) Hall) as Ht.
  destruct c' as [p| |rs]; [now destruct (Hend p) | contradiction |].
  exists rs. split; [exact Hrun|]. now apply (collected_complete w n sites).
Qed.

(** *** The pipeline *)

(** C4: a link the dispatcher marks [unknown] has reached no prober, no
    request was sent for it and the worker sends no verdict for it; and a
    finished run has collected no verdict of kind [unknown], so no row of
    the report has it. *)
Theorem C4_unknown_never_probed_nor_reported :
  forall w,
    (forall link r sent,
        detectService link w = (Returns r, sent) -> Type_ r = "unknown" ->
        sent = [] /\ Status r = "skipped"
        /\ forall site, fst (probeLink site link w) = Returns None)
    /\ (forall n sites rs,
          reaches w (start n sites) (Collected rs) ->
          Forall (fun r => Type_ r <> "unknown") rs
          /\ Forall (fun row => nth_error row 0 <> Some "unknown") (tl (csvRows rs))).
Proof.
  intros w. split.
  - intros link r sent Hrun Hty.
    destruct (detectService_unknown link w r sent Hrun Hty) as [-> ->].
    split; [reflexivity|]. split; [reflexivity|]. intros site.
    unfold probeLink, bind. rewrite Hrun. reflexivity.
  - intros n sites rs Hr.
    assert (Hall : Forall (fun r => Type_ r <> "unknown") rs).
    { apply Forall_forall. intros r Hin.
      apply (collected_sound w n sites rs Hr) in Hin.
      now apply expected_sends in Hin. }
    split; [exact Hall|]. cbn [csvRows tl].
    apply Forall_forall. intros row Hrow. apply in_map_iff in Hrow.
    destruct Hrow as (r & <- & Hin). cbn.
    rewrite Forall_forall in Hall. intros [= Heq]. exact (Hall r Hin Heq).
Qed.

(** C9: over the same sites and the same world, what a run with one
    worker collects and what a run with fifty workers collects are
    permutations of each other: the same rows, each as often. *)
Theorem C9_one_worker_or_fifty :
  forall w sites rs1 rs50,
    reaches w (start 1 sites) (Collected rs1) ->
    reaches w (start 50 sites) (Collected rs50) ->
    Permutation rs1 rs50
    /\ Permutation (csvRows rs1) (csvRows rs50).
Proof.
  intros w sites rs1 rs50 H1 H50.
  assert (Hperm : Permutation rs1 rs50).
  { etransitivity.
    - apply (collected_complete w 1 sites rs1); [discriminate | exact H1].
    - symmetry. apply (collected_complete w 50 sites rs50); [discriminate | exact H50]. }
  split; [exact Hperm|]. unfold csvRows. apply perm_skip. now apply Permutation_map.
Qed.

(** C10: when the fetch of a site's page fails, [extractLinks] returns no
    link, no verdict is owed for the site, the worker that received it is
    back at the receive with the queue advanced and nothing sent or
    collected, it goes on to extract the links of the next queued site, and
    no row of a finished run names the failed site as its source. *)
Theorem C10_failed_site_fetch_is_silent :
  forall w site,
    fst (httpClient_Get site w) = Returns None ->
    fst (extractLinks site w) = Returns []
    /\ siteVerdicts w site = []
    /\ (forall p ws1 ws2 rest,
          workers p = ws1 ++ Waiting :: ws2 -> jobs p = site :: rest ->
          reaches w (Running p)
            (Running {| unsent := unsent p; closed := closed p; jobs := rest;
                        workers := ws1 ++ Waiting :: ws2;
                        resultsChan := resultsChan p; results := results p |}))
    /\ (forall p ws1 ws2 next rest,
          workers p = ws1 ++ Waiting :: ws2 -> jobs p = site :: next :: rest ->
          reaches w (Running p)
            (Running {| unsent := unsent p; closed := closed p; jobs := rest;
                        workers := ws1 ++ Scanning next (linksOf w next) :: ws2;
                        resultsChan := resultsChan p; results := results p |}))
    /\ (forall n sites rs,
          reaches w (start n sites) (Collected rs) ->
          forall r, In r rs -> SourcePage r <> site).
Proof.
  intros w site Hfail.
  pose proof (extractLinks_failed site w Hfail) as Hnil.
  assert (Hsv : siteVerdicts w site = []).
  { unfold siteVerdicts, linksOf. rewrite Hnil. reflexivity. }
  assert (Hback : forall p ws1 ws2 rest,
             workers p = ws1 ++ Waiting :: ws2 -> jobs p = site :: rest ->
             reaches w (Running p)
               (Running {| unsent := unsent p; closed := closed p; jobs := rest;
                           workers := ws1 ++ Waiting :: ws2;
                           resultsChan := resultsChan p; results := results p |})).
  { intros p ws1 ws2 rest Hw Hj.
    eapply reaches_step; [apply (step_receive w p ws1 ws2 site rest Hw Hj)|].
    rewrite Hnil. apply reaches_one.
    apply (step_next w {| unsent := unsent p; closed := closed p; jobs := rest;
                          workers := ws1 ++ Scanning site [] :: ws2;
                          resultsChan := resultsChan p; results := results p |} ws1 ws2 site).
    reflexivity. }
  split; [exact Hnil|]. split; [exact Hsv|]. split; [exact Hback|]. split.
  - intros p ws1 ws2 next rest Hw Hj.
    eapply reaches_trans; [apply (Hback p ws1 ws2 (next :: rest) Hw Hj)|].
    pose proof (step_receive w
                  {| unsent := unsent p; closed := closed p; jobs := next :: rest;
                     workers := ws1 ++ Waiting :: ws2;
                     resultsChan := resultsChan p; results := results p |}
                  ws1 ws2 next rest eq_refl eq_refl) as Hstep.
    rewrite extractLinks_linksOf in Hstep. apply reaches_one. exact Hstep.
  - intros n sites rs Hr r Hin Hsrc.
    apply (collected_sound w n sites rs Hr) in Hin.
    apply expected_sends in Hin. destruct Hin as (_ & _ & Hin).
    rewrite Hsrc, Hsv in Hin. exact Hin.
Qed.

(** *** More on the probers *)

Lemma httpClient_Get_run target w :
  httpClient_Get target w
  = match url_Parse target with
    | Some u => (Returns (transport w (http.newRequest "GET" u)), [http.newRequest "GET" u])
    | None => (Returns None, [])
    end.
Proof.
  unfold httpClient_Get, http_NewRequest. destruct (url_Parse target); reflexivity.
Qed.

Lemma oneGet_nil : oneGet [].
Proof. split; [cbn; lia | constructor]. Qed.

Lemma oneGet_new u : oneGet [http.newRequest "GET" u].
Proof. split; [cbn; lia | repeat constructor]. Qed.

Ltac behaved :=
  eexists; eexists; split; [reflexivity|];
  cbn [Type_ Status URL SourcePage];
  repeat split; try reflexivity; try apply oneGet_nil; try apply oneGet_new;
  cbn; tauto.

Ltac signature_prober :=
  intros link w; unfold bind; rewrite httpClient_Get_run;
  destruct (url_Parse link) as [u|];
  [destruct (transport w _) as [resp|]|]; unfold readBody, ret; cbn [app].

Lemma checkS3_wellBehaved :
  wellBehaved checkS3 "s3" ["connection_error"; "possible_takeover"; "ok"].
Proof.
  unfold checkS3. signature_prober; [destruct (strings.Contains _ _)| |]; behaved.
Qed.

Lemma checkHeroku_wellBehaved :
  wellBehaved checkHeroku "heroku" ["connection_error"; "possible_takeover"; "ok"].
Proof.
  unfold checkHeroku. signature_prober; [destruct (strings.Contains _ _)| |]; behaved.
Qed.

Lemma checkVercel_wellBehaved :
  wellBehaved checkVercel "vercel" ["connection_error"; "possible_takeover"; "ok"].
Proof.
  unfold checkVercel. signature_prober; [destruct (_ && _)| |]; behaved.
Qed.

Lemma checkNetlify_wellBehaved :
  wellBehaved checkNetlify "netlify" ["connection_error"; "possible_takeover"; "ok"].
Proof.
  unfold checkNetlify. signature_prober; [destruct (_ && _)| |]; behaved.
Qed.

Lemma checkWix_wellBehaved :
  wellBehaved checkWix "wix" ["connection_error"; "possible_takeover"; "ok"].
Proof.
  unfold checkWix. signature_prober; [destruct (_ || _)| |]; behaved.
Qed.

Lemma checkTumblr_wellBehaved :
  wellBehaved checkTumblr "tumblr" ["connection_error"; "possible_takeover"; "ok"].
Proof.
  unfold checkTumblr. signature_prober; [destruct (_ || _)| |]; behaved.
Qed.

Lemma checkShopify_wellBehaved :
  wellBehaved checkShopify "shopify" ["connection_error"; "possible_takeover"; "ok"].
Proof.
  unfold checkShopify. signature_prober; [destruct (_ || _)| |]; behaved.
Qed.

Lemma checkChromeExtension_wellBehaved :
  wellBehaved checkChromeExtension "chrome_ext"
    ["invalid_url"; "connection_error"; "not_found"; "exists"].
Proof.
  intros link w. unfold checkChromeExtension.
  destruct (url_Parse link) as [u|]; [|unfold ret; behaved].
  destruct (strings.Split (strings.Trim (url.Path u) "/") "/") as [|p [|q rest]] eqn:E;
    cbn [List.length Nat.ltb Nat.leb]; try (unfold ret; behaved).
  unfold at_index.
  destruct (nth_error (p :: q :: rest) (S (S (List.length rest)) - 1)) as [extID|] eqn:Hid.
  - rewrite bind_ret. unfold bind. rewrite httpClient_Get_run.
    destruct (url_Parse _) as [u'|];
      [destruct (transport w _) as [resp|]; [destruct (_ || _)|]|];
      unfold readBody, ret; cbn [app]; behaved.
  - apply nth_error_None in Hid. cbn in Hid. lia.
Qed.

(** A text that holds [a ++ b] holds [b]. *)
Lemma HasPrefix_app_Contains a b : forall s,
  strings.HasPrefix s (a ++ b) = true -> strings.Contains s b = true.
Proof.
  induction a as [|c a IH]; intros s H.
  - cbn [append] in H. destruct s; cbn [strings.Contains]; rewrite H; reflexivity.
  - destruct s as [|c' s]; [discriminate H|].
    cbn [append strings.HasPrefix] in H. apply andb_prop in H. destruct H as [_ H].
    apply IH in H. cbn [strings.Contains]. rewrite H. apply orb_true_r.
Qed.

Lemma Contains_app_r a b : forall s,
  strings.Contains s (a ++ b) = true -> strings.Contains s b = true.
Proof.
  induction s as [|c s IH]; cbn [strings.Contains]; intros H.
  - rewrite orb_false_r in H. now apply HasPrefix_app_Contains in H.
  - apply orb_prop in H. destruct H as [H|H].
    + now apply HasPrefix_app_Contains in H.
    + fold (strings.Contains (String c s) b).
      cbn [strings.Contains]. rewrite (IH H). apply orb_true_r.
Qed.

(** The third pattern of the first case never decides: a link that holds
    [gist.github.com] holds [github.com]. *)
Lemma gist_is_github link :
  strings.Contains link "gist.github.com" = true -> strings.Contains link "github.com" = true.
Proof. apply (Contains_app_r "gist." "github.com"). Qed.

Lemma forge_patterns link :
  strings.Contains link "github.com" || strings.Contains link "github.io"
  || strings.Contains link "gist.github.com"
  = strings.Contains link "github.com" || strings.Contains link "github.io".
Proof.
  destruct (strings.Contains link "gist.github.com") eqn:Hg.
  - rewrite (gist_is_github link Hg). reflexivity.
  - now rewrite orb_false_r.
Qed.

(** What the metadata-API probe and the code-forge prober return, when
    they return, and what they have sent when they panic. *)
Lemma githubAPIRequest_shape entityType api link w :
  In entityType apiKinds ->
  match githubAPIRequest entityType api link w with
  | (Returns r, sent) =>
      Type_ r = entityType /\ URL r = link /\ SourcePage r = ""
      /\ verdictShape r /\ oneGet sent
  | (Panics, sent) => sent = []
  end.
Proof.
  intros Hin. destruct (http_NewRequest "GET" api) as [req0|] eqn:Hreq.
  - destruct (githubAPIRequest_run entityType api link w req0 Hreq)
      as (req & r & Hrun & Hrq & Hty & Hurl & Hsp & Hst).
    rewrite Hrun. split; [exact Hty|]. split; [exact Hurl|]. split; [exact Hsp|]. split.
    + right. left. rewrite Hty. split; [exact Hin|]. rewrite Hst.
      destruct (transport w req) as [resp|]; [|left; cbn; tauto]. cbn zeta.
      destruct (http.StatusCode resp =? 404)%Z; [left; cbn; tauto|].
      destruct (http.StatusCode resp =? 200)%Z; [left; cbn; tauto|].
      destruct ((http.StatusCode resp =? 403)%Z || (http.StatusCode resp =? 429)%Z);
        [left; cbn; tauto|].
      right. eexists. reflexivity.
    + split; [cbn; lia|]. constructor; [|constructor].
      unfold http_NewRequest in Hreq.
      destruct (url_Parse api); [injection Hreq as <-|discriminate].
      subst req. destruct (negb _); reflexivity.
  - unfold githubAPIRequest. rewrite Hreq. reflexivity.
Qed.

Lemma checkGitHub_shape link w :
  match checkGitHub link w with
  | (Returns r, sent) =>
      URL r = link /\ SourcePage r = "" /\ verdictShape r /\ Type_ r <> "unknown"
      /\ oneGet sent
  | (Panics, sent) => sent = []
  end.
Proof.
  destruct (url_Parse link) as [parsed|] eqn:Hp;
    [|rewrite (checkGitHub_panics_unparsed link w Hp); reflexivity].
  destruct (strings.Contains link "github.io") eqn:Hio.
  - unfold checkGitHub. rewrite Hp, Hio. unfold bind. rewrite httpClient_Get_run, Hp.
    unfold readBody.
    destruct (transport w _) as [resp|];
      [destruct (strings.Contains (http.Body resp) _)|];
      unfold ret; cbn;
      (split; [reflexivity|]); (split; [reflexivity|]);
      (split; [left; cbn; tauto|]); (split; [discriminate | apply oneGet_new]).
  - destruct (checkGitHub_routes link parsed Hp Hio)
      as [[_ Hrun]|[_ (e & a & Hin & Hrun)]]; rewrite Hrun.
    + cbn [Type_ Status URL SourcePage]. split; [reflexivity|]. split; [reflexivity|].
      split; [right; right; left; now split|]. split; [discriminate | apply oneGet_nil].
    + pose proof (githubAPIRequest_shape e a link w Hin) as Hshape.
      destruct (githubAPIRequest e a link w) as [[r|] sent]; [|exact Hshape].
      destruct Hshape as (Hty & Hurl & Hsp & Hsh & Hget).
      repeat split; try assumption; try apply Hget.
      rewrite Hty. cbn in Hin. destruct Hin as [<-|[<-|[<-|[]]]]; discriminate.
Qed.

(** The cases of the dispatcher after the first one are a first-match
    lookup in [serviceTable]. *)
Lemma detectService_table link :
  strings.Contains link "github.com" = false ->
  strings.Contains link "github.io" = false ->
  (exists check statuses,
      wellBehaved check (firstMatch link serviceTable) statuses
      /\ firstMatch link serviceTable <> "unknown"
      /\ ((In (firstMatch link serviceTable) signatureKinds
           /\ statuses = ["connection_error"; "possible_takeover"; "ok"])
          \/ (firstMatch link serviceTable = "chrome_ext"
              /\ statuses = ["invalid_url"; "connection_error"; "not_found"; "exists"]))
      /\ forall w, detectService link w = check link w)
  \/ (firstMatch link serviceTable = "unknown"
      /\ forall w, detectService link w
                   = (Returns {| Type_ := "unknown"; Status := "skipped";
                                 URL := link; SourcePage := "" |}, [])).
Proof.
  intros Hcom Hio. unfold detectService. rewrite forge_patterns, Hcom, Hio.
  cbn [orb firstMatch serviceTable].
  destruct (strings.Contains link ".s3.amazonaws.com");
    [left; eexists checkS3, _; split; [apply checkS3_wellBehaved|];
     split; [discriminate|]; split; [left; split; [cbn; tauto | reflexivity] | reflexivity]|].
  destruct (strings.Contains link "herokuapp.com");
    [left; eexists checkHeroku, _; split; [apply checkHeroku_wellBehaved|];
     split; [discriminate|]; split; [left; split; [cbn; tauto | reflexivity] | reflexivity]|].
  destruct (strings.Contains link ".vercel.app");
    [left; eexists checkVercel, _; split; [apply checkVercel_wellBehaved|];
     split; [discriminate|]; split; [left; split; [cbn; tauto | reflexivity] | reflexivity]|].
  destruct (strings.Contains link ".netlify.app");
    [left; eexists checkNetlify, _; split; [apply checkNetlify_wellBehaved|];
     split; [discriminate|]; split; [left; split; [cbn; tauto | reflexivity] | reflexivity]|].
  destruct (strings.Contains link "chrome.google.com/webstore/detail/");
    [left; eexists checkChromeExtension, _; split; [apply checkChromeExtension_wellBehaved|];
     split; [discriminate|]; split; [right; split; reflexivity | reflexivity]|].
  destruct (strings.Contains link ".wixsite.com");
    [left; eexists checkWix, _; split; [apply checkWix_wellBehaved|];
     split; [discriminate|]; split; [left; split; [cbn; tauto | reflexivity] | reflexivity]|].
  destruct (strings.Contains link ".tumblr.com");
    [left; eexists checkTumblr, _; split; [apply checkTumblr_wellBehaved|];
     split; [discriminate|]; split; [left; split; [cbn; tauto | reflexivity] | reflexivity]|].
  destruct (strings.Contains link ".myshopify.com");
    [left; eexists checkShopify, _; split; [apply checkShopify_wellBehaved|];
     split; [discriminate|]; split; [left; split; [cbn; tauto | reflexivity] | reflexivity]|].
  right. now split.
Qed.

Lemma detectService_forge link :
  strings.Contains link "github.com" || strings.Contains link "github.io" = true ->
  forall w, detectService link w = checkGitHub link w.
Proof.
  intros H w. unfold detectService. rewrite forge_patterns, H. reflexivity.
Qed.

(** Every verdict of the dispatcher is about the link it was given, has no
    source page yet, and pairs its kind with a status of that kind; and
    whether it returns or panics, the dispatcher has sent at most one GET. *)
Lemma detectService_shape link w :
  oneGet (snd (detectService link w))
  /\ forall r sent,
       detectService link w = (Returns r, sent) ->
       URL r = link /\ SourcePage r = "" /\ verdictShape r.
Proof.
  destruct (strings.Contains link "github.com" || strings.Contains link "github.io") eqn:Hf.
  - rewrite (detectService_forge link Hf w).
    pose proof (checkGitHub_shape link w) as H.
    destruct (checkGitHub link w) as [[r|] sent].
    + destruct H as (Hurl & Hsp & Hsh & _ & Hget). split; [exact Hget|].
      intros r' sent' [= <- <-]. now repeat split.
    + cbn [snd]. subst sent. split; [apply oneGet_nil | intros r' sent' [=]].
  - apply orb_false_elim in Hf. destruct Hf as [Hcom Hio].
    destruct (detectService_table link Hcom Hio)
      as [(check & statuses & Hwb & _ & Hkinds & Hrun)|[_ Hrun]]; rewrite Hrun.
    + destruct (Hwb link w) as (r & sent & -> & Hty & Hst & Hurl & Hsp & Hget).
      split; [exact Hget|]. intros r' sent' [= <- <-].
      split; [exact Hurl|]. split; [exact Hsp|].
      destruct Hkinds as [[Hk ->]|[Hk ->]].
      * left. rewrite Hty. now split.
      * right. right. right. left. rewrite Hty. now split.
    + split; [apply oneGet_nil|]. intros r' sent' [= <- <-].
      split; [reflexivity|]. split; [reflexivity|]. right. right. right. right. now split.
Qed.

Lemma firstMatch_unknown_gen link : forall table,
  Forall (fun entry => snd entry <> "unknown") table ->
  (firstMatch link table = "unknown"
   <-> Forall (fun pattern => strings.Contains link pattern = false) (map fst table)).
Proof.
  induction 1 as [|[pattern kind] table Hkind _ IH]; cbn [firstMatch map fst].
  - split; [constructor | reflexivity].
  - cbn [snd] in Hkind. destruct (strings.Contains link pattern) eqn:Hp.
    + split; [contradiction|]. intros H. inversion H; subst. congruence.
    + rewrite IH. split; [now constructor | intros H; now inversion H].
Qed.

Lemma firstMatch_unknown link :
  firstMatch link serviceTable = "unknown"
  <-> Forall (fun pattern => strings.Contains link pattern = false) (map fst serviceTable).
Proof.
  apply firstMatch_unknown_gen. unfold serviceTable.
  repeat constructor; discriminate.
Qed.

(** X1: outside the code forge the dispatcher never panics: for a link that
    holds neither [github.com] nor [github.io], parsable or not, it returns
    a verdict about that link whose kind is the first match of
    [serviceTable] ([unknown] when none matches), having sent at most one
    GET. *)
Theorem dispatch_first_match_outside_forge :
  forall link w,
    strings.Contains link "github.com" = false ->
    strings.Contains link "github.io" = false ->
    exists r sent,
      detectService link w = (Returns r, sent)
      /\ Type_ r = firstMatch link serviceTable
      /\ URL r = link /\ SourcePage r = "" /\ oneGet sent.
Proof.
  intros link w Hcom Hio.
  destruct (detectService_table link Hcom Hio)
    as [(check & statuses & Hwb & _ & _ & Hrun)|[Hun Hrun]]; rewrite Hrun.
  - destruct (Hwb link w) as (r & sent & -> & Hty & _ & Hurl & Hsp & Hget).
    exists r, sent. split; [reflexivity|]. split; [exact Hty|].
    split; [exact Hurl|]. split; [exact Hsp | exact Hget].
  - eexists. eexists. split; [reflexivity|]. rewrite Hun. cbn [Type_ URL SourcePage].
    split; [reflexivity|]. split; [reflexivity|]. split; [reflexivity | apply oneGet_nil].
Qed.

(** X2: a verdict has the kind [unknown] exactly when the link holds none of
    the ten patterns ([gist.github.com], the eleventh, holds [github.com]):
    no prober answers [unknown] itself. *)
Theorem unknown_iff_no_pattern :
  forall link w r sent,
    detectService link w = (Returns r, sent) ->
    (Type_ r = "unknown"
     <-> Forall (fun pattern => strings.Contains link pattern = false)
           ("github.com" :: "github.io" :: map fst serviceTable)).
Proof.
  intros link w r sent Hrun.
  destruct (strings.Contains link "github.com" || strings.Contains link "github.io") eqn:Hf.
  - rewrite (detectService_forge link Hf w) in Hrun.
    pose proof (checkGitHub_shape link w) as Hsh. rewrite Hrun in Hsh.
    destruct Hsh as (_ & _ & _ & Hne & _). split; [contradiction|].
    intros H. inversion H as [|? ? Hcom H']; subst. inversion H' as [|? ? Hio H'']; subst.
    rewrite Hcom, Hio in Hf. discriminate Hf.
  - apply orb_false_elim in Hf. destruct Hf as [Hcom Hio].
    destruct (detectService_table link Hcom Hio)
      as [(check & statuses & Hwb & Hne & _ & Hcheck)|[Hun Hskip]].
    + rewrite Hcheck in Hrun.
      destruct (Hwb link w) as (r' & sent' & Hrun' & Hty & _).
      rewrite Hrun in Hrun'. injection Hrun' as <- <-. rewrite Hty. split; [contradiction|].
      intros H. inversion H as [|? ? _ H']; subst. inversion H' as [|? ? _ H'']; subst.
      now apply firstMatch_unknown in H''.
    + rewrite Hskip in Hrun. injection Hrun as <- <-. cbn [Type_]. split; [|reflexivity].
      intros _. constructor; [exact Hcom|]. constructor; [exact Hio|].
      now apply firstMatch_unknown.
Qed.

Lemma extractLinks_sent site w : oneGet (snd (extractLinks site w)).
Proof.
  unfold extractLinks, bind. rewrite httpClient_Get_run.
  destruct (url_Parse site) as [u|]; [destruct (transport w _)|];
    unfold ret; cbn [snd app]; try apply oneGet_new; apply oneGet_nil.
Qed.

(** X3: the request budget: a call of the dispatcher sends at most one
    request, whether it returns or panics, and so does link extraction; a
    worker sends at most one request more than the site has links; every
    request is a GET.  (A request is a call of the HTTP client: the
    redirects the client follows on its own are part of [transport].) *)
Theorem request_budget :
  forall w site link,
    oneGet (snd (detectService link w))
    /\ oneGet (snd (extractLinks site w))
    /\ (List.length (siteRequests w site) <= 1 + List.length (linksOf w site))%nat
    /\ Forall (fun req => http.Method req = "GET") (siteRequests w site).
Proof.
  intros w site link.
  split; [apply detectService_shape|]. split; [apply extractLinks_sent|].
  unfold siteRequests. destruct (extractLinks_sent site w) as [Hlen Hget].
  assert (Hlinks : forall links,
             (List.length (flat_map (fun l => snd (detectService l w)) links)
              <= List.length links)%nat
             /\ Forall (fun req => http.Method req = "GET")
                  (flat_map (fun l => snd (detectService l w)) links)).
  { induction links as [|l links [IHlen IHget]]; [split; [cbn; lia | constructor]|].
    cbn [flat_map]. destruct (proj1 (detectService_shape l w)) as [Hl Hg].
    rewrite length_app. split; [cbn [List.length]; lia | now apply Forall_app]. }
  destruct (Hlinks (linksOf w site)) as [Hl Hg].
  rewrite length_app. split; [lia | now apply Forall_app].
Qed.

(** X4: six of the probers judge by the body alone: against two worlds whose
    answers have the same bodies, whatever their status codes, each gives
    the same verdict and sends the same request. *)
Theorem signature_probers_read_body_only :
  forall link w1 w2,
    (forall req, option_map http.Body (transport w1 req)
                 = option_map http.Body (transport w2 req)) ->
    checkS3 link w1 = checkS3 link w2
    /\ checkHeroku link w1 = checkHeroku link w2
    /\ checkVercel link w1 = checkVercel link w2
    /\ checkNetlify link w1 = checkNetlify link w2
    /\ checkWix link w1 = checkWix link w2
    /\ checkShopify link w1 = checkShopify link w2.
Proof.
  intros link w1 w2 Hbody.
  unfold checkS3, checkHeroku, checkVercel, checkNetlify, checkWix, checkShopify, bind.
  rewrite !httpClient_Get_run.
  destruct (url_Parse link) as [u|]; [|repeat split].
  specialize (Hbody (http.newRequest "GET" u)).
  destruct (transport w1 _) as [resp1|], (transport w2 _) as [resp2|];
    cbn in Hbody; try discriminate Hbody; [|repeat split].
  injection Hbody as Hbody. unfold readBody. rewrite Hbody.
  repeat split;
    repeat (match goal with |- context [if ?c then _ else _] => destruct c end);
    reflexivity.
Qed.

(** X5: the Tumblr prober also looks at the status code: an answer with HTTP
    404 is a possible takeover whatever its body. *)
Theorem tumblr_status_or_body :
  forall link u w resp,
    url_Parse link = Some u ->
    transport w (http.newRequest "GET" u) = Some resp ->
    exists r,
      checkTumblr link w = (Returns r, [http.newRequest "GET" u])
      /\ Type_ r = "tumblr" /\ URL r = link
      /\ (Status r = "possible_takeover"
          <-> strings.Contains (http.Body resp) "There's nothing here" = true
              \/ http.StatusCode resp = 404%Z)
      /\ (Status r <> "possible_takeover" -> Status r = "ok").
Proof.
  intros link u w resp Hp Hresp.
  unfold checkTumblr, bind. rewrite httpClient_Get_run, Hp, Hresp. unfold readBody.
  destruct (strings.Contains (http.Body resp) _) eqn:Hbody; cbn [orb].
  - eexists. split; [reflexivity|]. cbn [Type_ URL Status].
    split; [reflexivity|]. split; [reflexivity|]. split; [|intros H; now destruct H].
    split; [now left | reflexivity].
  - destruct (Z.eqb_spec (http.StatusCode resp) 404) as [Hsc|Hsc].
    + eexists. split; [reflexivity|]. cbn [Type_ URL Status].
      split; [reflexivity|]. split; [reflexivity|]. split; [|intros H; now destruct H].
      split; [now right | reflexivity].
    + eexists. split; [reflexivity|]. cbn [Type_ URL Status].
      split; [reflexivity|]. split; [reflexivity|]. split; [|reflexivity].
      split; [discriminate | intros [H|H]; [discriminate H | contradiction]].
Qed.

Lemma nth_error_last (d : string) : forall parts,
  parts <> [] -> nth_error parts (List.length parts - 1) = Some (last parts d).
Proof.
  induction parts as [|p parts IH]; [contradiction|]. intros _.
  destruct parts as [|q parts]; [reflexivity|].
  replace (List.length (p :: q :: parts) - 1)%nat with (S (List.length (q :: parts) - 1))
    by (cbn [List.length]; lia).
  cbn [nth_error]. rewrite IH by discriminate. reflexivity.
Qed.

(** X6: the extension prober: a link that does not parse, or whose path has
    fewer than two segments, is an [invalid_url] and nothing is sent;
    otherwise the store page of the last path segment is fetched, whatever
    the host of the link, and the verdict, which keeps the link, is
    [not_found] exactly when the body holds [Item not found] or [404]. *)
Theorem chrome_extension_probe :
  forall link w,
    (url_Parse link = None ->
     checkChromeExtension link w
     = (Returns {| Type_ := "chrome_ext"; Status := "invalid_url";
                   URL := link; SourcePage := "" |}, []))
    /\ (forall u,
          url_Parse link = Some u ->
          ((List.length (strings.Split (strings.Trim (url.Path u) "/") "/") < 2)%nat ->
           checkChromeExtension link w
           = (Returns {| Type_ := "chrome_ext"; Status := "invalid_url";
                         URL := link; SourcePage := "" |}, []))
          /\ ((2 <= List.length (strings.Split (strings.Trim (url.Path u) "/") "/"))%nat ->
              exists r,
                checkChromeExtension link w
                = (Returns r,
                   snd (httpClient_Get
                          ("https://chrome.google.com/webstore/detail/"
                           ++ last (strings.Split (strings.Trim (url.Path u) "/") "/") "") w))
                /\ Type_ r = "chrome_ext" /\ URL r = link
                /\ Status r
                   = match fst (httpClient_Get
                                  ("https://chrome.google.com/webstore/detail/"
                                   ++ last (strings.Split (strings.Trim (url.Path u) "/") "/") "")
                                  w) with
                     | Returns (Some resp) =>
                         if strings.Contains (http.Body resp) "Item not found"
                            || strings.Contains (http.Body resp) "404"
                         then "not_found" else "exists"
                     | _ => "connection_error"
                     end)).
Proof.
  intros link w. unfold checkChromeExtension. split.
  - intros ->. reflexivity.
  - intros u ->. split.
    + intros Hlen. apply Nat.ltb_lt in Hlen. rewrite Hlen. reflexivity.
    + intros Hlen.
      assert (Hge : (List.length (strings.Split (strings.Trim (url.Path u) "/") "/") <? 2)%nat
                    = false) by (apply Nat.ltb_ge; exact Hlen).
      rewrite Hge. unfold at_index.
      rewrite (nth_error_last "") by apply Split_nonempty.
      rewrite bind_ret. unfold bind. rewrite !httpClient_Get_run. unfold readBody.
      destruct (url_Parse _) as [t|];
        [destruct (transport w _) as [resp|]|]; cbn [fst snd];
        [destruct (strings.Contains (http.Body resp) "Item not found"
                   || strings.Contains (http.Body resp) "404")| |];
        eexists; (split; [reflexivity|]); cbn; repeat split; reflexivity.
Qed.

(** *** More on the scheduler *)

(** The moves between running configurations, case by case. *)
Lemma step_running w p p' :
  step w (Running p) (Running p') ->
  (exists site rest,
      unsent p = site :: rest
      /\ p' = {| unsent := rest; closed := closed p; jobs := jobs p ++ [site];
                 workers := workers p; resultsChan := resultsChan p;
                 results := results p |})
  \/ (unsent p = [] /\ closed p = false
      /\ p' = {| unsent := []; closed := true; jobs := jobs p; workers := workers p;
                 resultsChan := resultsChan p; results := results p |})
  \/ (exists ws1 ws2 site rest,
        workers p = ws1 ++ Waiting :: ws2 /\ jobs p = site :: rest
        /\ p' = {| unsent := unsent p; closed := closed p; jobs := rest;
                   workers := ws1 ++ Scanning site (linksOf w site) :: ws2;
                   resultsChan := resultsChan p; results := results p |})
  \/ (exists ws1 ws2,
        workers p = ws1 ++ Waiting :: ws2 /\ jobs p = [] /\ closed p = true
        /\ p' = setWorkers p (ws1 ++ Finished :: ws2))
  \/ (exists ws1 ws2 site l links r,
        workers p = ws1 ++ Scanning site (l :: links) :: ws2
        /\ fst (probeLink site l w) = Returns (Some r)
        /\ p' = setWorkers p (ws1 ++ Sending r site links :: ws2))
  \/ (exists ws1 ws2 site l links,
        workers p = ws1 ++ Scanning site (l :: links) :: ws2
        /\ fst (probeLink site l w) = Returns None
        /\ p' = setWorkers p (ws1 ++ Scanning site links :: ws2))
  \/ (exists ws1 ws2 r site links,
        workers p = ws1 ++ Sending r site links :: ws2
        /\ (List.length (resultsChan p) < resultsCap)%nat
        /\ p' = {| unsent := unsent p; closed := closed p; jobs := jobs p;
                   workers := ws1 ++ Scanning site links :: ws2;
                   resultsChan := resultsChan p ++ [r]; results := results p |})
  \/ (exists ws1 ws2 site,
        workers p = ws1 ++ Scanning site [] :: ws2
        /\ p' = setWorkers p (ws1 ++ Waiting :: ws2))
  \/ (exists r rest,
        closed p = true /\ resultsChan p = r :: rest
        /\ p' = {| unsent := unsent p; closed := closed p; jobs := jobs p;
                   workers := workers p; resultsChan := rest;
                   results := results p ++ [r] |}).
Proof.
  intros Hstep. inversion Hstep as [p0 site rest Hu | p0 Hu Hc | p0 ws1 ws2 site rest Hw Hj
                    | p0 ws1 ws2 Hw Hj Hc | p0 ws1 ws2 site l links Hw
                    | p0 ws1 ws2 r site links Hw Hroom | p0 ws1 ws2 site Hw
                    | p0 r rest Hc Hr | ]; subst.
  - left. now exists site, rest.
  - right. left. now repeat split.
  - right. right. left. exists ws1, ws2, site, rest.
    match goal with H : _ = Running p' |- _ => rewrite extractLinks_linksOf in H;
                                               injection H as <- end.
    now repeat split.
  - right. right. right. left. now exists ws1, ws2.
  - match goal with H : _ = Running p' |- _ => rename H into Hp' end.
    destruct (fst (probeLink site l w)) as [[r|]|] eqn:Hprobe; [| |discriminate Hp'];
      injection Hp' as <-.
    + do 4 right. left. now exists ws1, ws2, site, l, links, r.
    + do 5 right. left. now exists ws1, ws2, site, l, links.
  - do 6 right. left. now exists ws1, ws2, r, site, links.
  - do 7 right. left. now exists ws1, ws2, site.
  - do 8 right. now exists r, rest.
Qed.

(** What every move between running configurations keeps holds of every
    running configuration of a run. *)
Lemma running_invariant w (P : pool -> Prop) :
  (forall p p', P p -> step w (Running p) (Running p') -> P p') ->
  forall c c', reaches w c c' ->
  forall p p', c = Running p -> c' = Running p' -> P p -> P p'.
Proof.
  intros Hkeep c c' Hr.
  induction Hr as [c|c1 c2 c3 Hstep Hrest IH]; intros p p' -> Hc' HP.
  - injection Hc' as <-. exact HP.
  - destruct c2 as [p2| |rs].
    + apply (IH p2 p' eq_refl Hc'). now apply (Hkeep p p2).
    + apply stuck_unless_running in Hrest; [|discriminate]. congruence.
    + apply stuck_unless_running in Hrest; [|discriminate]. congruence.
Qed.

(** A finished run has passed through a running configuration that took
    the last move, the end of the collecting loop. *)
Lemma collected_last w c rs :
  reaches w c (Collected rs) -> c <> Collected rs ->
  exists p, reaches w c (Running p)
            /\ closed p = true /\ Forall (fun g => g = Finished) (workers p)
            /\ resultsChan p = [] /\ results p = rs.
Proof.
  intros Hr. remember (Collected rs) as c' eqn:Hc'.
  induction Hr as [c|c1 c2 c3 Hstep Hrest IH]; intros Hne; [contradiction|].
  subst c3. destruct c2 as [p2| |rs2].
  - destruct (IH eq_refl) as (p & Hp & Hcl & Hall & Hch & Hres); [discriminate|].
    exists p. split; [eapply reaches_step; eassumption | now repeat split].
  - apply stuck_unless_running in Hrest; [|discriminate]. discriminate Hrest.
  - apply stuck_unless_running in Hrest; [|discriminate]. injection Hrest as <-.
    inversion Hstep; subst;
      try match goal with
          | H : match fst (extractLinks _ _) with _ => _ end = _ |- _ =>
              rewrite extractLinks_linksOf in H; discriminate H
          | H : match fst (probeLink ?s ?l w) with _ => _ end = _ |- _ =>
              destruct (fst (probeLink s l w)) as [[?|]|]; discriminate H
          end.
    match goal with p0 : pool |- _ => exists p0 end.
    split; [apply reaches_refl | now repeat split].
Qed.


(** X14: the buffers stay within their capacities. The channel [jobs] is made
    with room for every site, so the sends of [main] never block: while a
    site is still to be queued the buffer has a free slot. The channel of
    results never holds more than its hundred slots, and the number of
    workers never changes. *)
Theorem channels_within_capacity w n sites p :
  reaches w (start n sites) (Running p) ->
  (List.length (unsent p) + List.length (jobs p) <= List.length sites)%nat
  /\ (unsent p <> [] -> (List.length (jobs p) < List.length sites)%nat)
  /\ (List.length (resultsChan p) <= resultsCap)%nat
  /\ List.length (workers p) = n.
Proof.
  intros Hr.
  assert (H : (List.length (unsent p) + List.length (jobs p) <= List.length sites)%nat
              /\ (List.length (resultsChan p) <= resultsCap)%nat
              /\ List.length (workers p) = n).
  { refine (running_invariant w
              (fun q => (List.length (unsent q) + List.length (jobs q) <= List.length sites)%nat
                        /\ (List.length (resultsChan q) <= resultsCap)%nat
                        /\ List.length (workers q) = n)
              _ _ _ Hr _ p eq_refl eq_refl _).
    - clear. intros p p' (Hq & Hc & Hn) Hstep.
      destruct (step_running w p p' Hstep)
        as [(site & rest & Hu & ->)
           |[(Hu & Hcl & ->)
           |[(ws1 & ws2 & site & rest & Hw & Hj & ->)
           |[(ws1 & ws2 & Hw & Hj & Hcl & ->)
           |[(ws1 & ws2 & site & l & links & r & Hw & Hp & ->)
           |[(ws1 & ws2 & site & l & links & Hw & Hp & ->)
           |[(ws1 & ws2 & r & site & links & Hw & Hroom & ->)
           |[(ws1 & ws2 & site & Hw & ->)
           |(r & rest & Hcl & Hch & ->)]]]]]]]];
        cbn [unsent jobs resultsChan workers setWorkers];
        try rewrite Hu in Hq; try rewrite Hj in Hq; try rewrite Hch in Hc;
        try rewrite Hw in Hn; try rewrite Hj;
        rewrite ?length_app in *; cbn [List.length] in *;
        repeat split; lia.
    - cbn. rewrite repeat_length. unfold resultsCap. repeat split; lia. }
  destruct H as (Hq & Hc & Hn). repeat split; try assumption.
  intros Hu. destruct (unsent p); [contradiction|]. cbn [List.length] in Hq. lia.
Qed.

Lemma reachesIn_decreases w k c c' :
  reachesIn w k c c' -> (k + movesLeft w c' <= movesLeft w c)%nat.
Proof.
  induction 1 as [c|k c1 c2 c3 Hstep _ IH]; [lia|].
  pose proof (step_decreases w _ _ Hstep). lia.
Qed.

Lemma reachesIn_reaches w k c c' : reachesIn w k c c' -> reaches w c c'.
Proof.
  induction 1 as [c|k c1 c2 c3 Hstep _ IH]; [apply reaches_refl|].
  eapply reaches_step; eassumption.
Qed.

(** X13: no schedule runs for ever: whatever the interleaving, a run takes at
    most two moves of [main], one per worker, and three per site and per
    link. *)
Theorem run_length_bounded w n sites k c :
  reachesIn w k (start n sites) c ->
  (k <= 2 + n + list_sum (map (fun site => 3 * List.length (linksOf w site) + 3) sites))%nat.
Proof.
  intros Hr. apply reachesIn_decreases in Hr.
  assert (Hstart : movesLeft w (start n sites)
                   = (2 + n + list_sum (map (fun site => 3 * List.length (linksOf w site) + 3)
                                            sites))%nat).
  { cbn [start movesLeft unsent closed jobs workers resultsChan map list_sum fold_right
         List.length].
    assert (Hws : list_sum (map cost (repeat Waiting n)) = n).
    { clear. induction n as [|m IH]; [reflexivity|].
      cbn [repeat map list_sum fold_right cost].
      unfold list_sum in IH. rewrite IH. reflexivity. }
    unfold list_sum in Hws |- *. rewrite Hws.
    assert (Hs : fold_right Nat.add 0%nat (map (fun site => S (siteCost w site)) sites)
                 = fold_right Nat.add 0%nat
                     (map (fun site => 3 * List.length (linksOf w site) + 3) sites)).
    { f_equal. apply map_ext. intros site. unfold siteCost. lia. }
    rewrite Hs. lia. }
  lia.
Qed.




(** *** The order of the rows *)

Lemma rowsOf_app site rs1 rs2 : rowsOf site (rs1 ++ rs2) = rowsOf site rs1 ++ rowsOf site rs2.
Proof. apply filter_app. Qed.

Lemma rowsOf_other site s rs :
  (forall r, In r rs -> SourcePage r = s) -> s <> site -> rowsOf site rs = [].
Proof.
  intros Hsrc Hne. induction rs as [|r rs IH]; [reflexivity|].
  cbn. rewrite (Hsrc r) by now left.
  destruct (String.eqb_spec s site) as [Heq|_]; [contradiction|].
  apply IH. intros r' Hr'. apply Hsrc. now right.
Qed.

Lemma rowsOf_same site rs :
  (forall r, In r rs -> SourcePage r = site) -> rowsOf site rs = rs.
Proof.
  intros Hsrc. induction rs as [|r rs IH]; [reflexivity|].
  cbn. rewrite (Hsrc r) by now left. rewrite String.eqb_refl. f_equal.
  apply IH. intros r' Hr'. apply Hsrc. now right.
Qed.

Lemma rowsOf_sentFor_other w site s links :
  s <> site -> rowsOf site (sentFor w s links) = [].
Proof.
  intros Hne. apply (rowsOf_other site s); [|exact Hne].
  intros r Hr. now destruct (sentFor_sends w s links r Hr).
Qed.

Lemma rowsOf_sentFor_same w site links :
  rowsOf site (sentFor w site links) = sentFor w site links.
Proof.
  apply rowsOf_same. intros r Hr. now destruct (sentFor_sends w site links r Hr).
Qed.

(** Workers that are not on a site owe none of its rows. *)
Lemma rowsOf_elsewhere w site ws :
  Forall holdsOwn ws -> ~ In site (flat_map busy ws) ->
  flat_map (fun g => rowsOf site (owed w g)) ws = [].
Proof.
  induction ws as [|g ws IH]; intros Hown Hnot; [reflexivity|].
  inversion Hown as [|? ? Hg Hrest]; subst.
  cbn [flat_map] in *. rewrite in_app_iff in Hnot.
  rewrite IH by tauto. rewrite app_nil_r.
  destruct g as [|s links|r s links|]; cbn [owed busy In holdsOwn] in *; try reflexivity.
  - apply rowsOf_sentFor_other. tauto.
  - cbn. rewrite Hg. destruct (String.eqb_spec s site) as [Heq|Hne]; [tauto|].
    now apply rowsOf_sentFor_other.
Qed.

Lemma rowsOf_finished w site ws :
  Forall (fun g => g = Finished) ws -> flat_map (fun g => rowsOf site (owed w g)) ws = [].
Proof.
  induction 1 as [|g ws -> _ IH]; [reflexivity | exact IH].
Qed.

Lemma rowsOf_sites w site sites :
  NoDup sites -> In site sites ->
  flat_map (fun s => rowsOf site (siteVerdicts w s)) sites = siteVerdicts w site.
Proof.
  intros Hnd. induction Hnd as [|s sites Hnot _ IH]; intros Hin; [contradiction|].
  cbn [flat_map]. destruct Hin as [->|Hin].
  - unfold siteVerdicts at 1. rewrite rowsOf_sentFor_same.
    assert (Hrest : flat_map (fun s => rowsOf site (siteVerdicts w s)) sites = []).
    { clear IH. induction sites as [|s sites IH]; [reflexivity|]. cbn [flat_map].
      unfold siteVerdicts at 1. rewrite rowsOf_sentFor_other.
      - apply IH. intros Hin. apply Hnot. now right.
      - intros ->. apply Hnot. now left. }
    rewrite Hrest. apply app_nil_r.
  - unfold siteVerdicts at 1. rewrite rowsOf_sentFor_other; [now apply IH|].
    intros ->. contradiction.
Qed.

Lemma start_inOrder w n sites :
  NoDup sites ->
  forall p, start n sites = Running p -> inOrder w sites p.
Proof.
  intros Hnd p [= <-]. unfold inOrder, rowsAhead. cbn [workers jobs unsent resultsChan results].
  assert (Hb : flat_map busy (repeat Waiting n) = []).
  { clear. induction n as [|m IH]; [reflexivity | exact IH]. }
  assert (Ho : forall site,
             flat_map (fun g => rowsOf site (owed w g)) (repeat Waiting n) = []).
  { intros site. clear. induction n as [|m IH]; [reflexivity | exact IH]. }
  split; [|split].
  - rewrite Hb. exact Hnd.
  - apply Forall_forall. intros g Hg. apply repeat_spec in Hg. now subst.
  - intros site. rewrite Ho. reflexivity.
Qed.


Lemma inOrder_kept w sites p p' :
  inOrder w sites p -> step w (Running p) (Running p') -> inOrder w sites p'.
Proof.
  intros (Hnd & Hown & Hrows) Hstep. unfold inOrder.
  assert (Hrow : forall site,
             rowsAhead w site p' = rowsAhead w site p
             /\ NoDup (flat_map busy (workers p') ++ jobs p' ++ unsent p')
             /\ Forall holdsOwn (workers p'));
    [|split; [apply (Hrow "") | split; [apply (Hrow "")|]];
      intros site; rewrite <- (Hrows site); apply Hrow].
  clear Hrows. intros site. unfold rowsAhead.
  destruct (step_running w p p' Hstep)
    as [(s & rest & Hu & ->)
       |[(Hu & Hcl & ->)
       |[(ws1 & ws2 & s & rest & Hw & Hj & ->)
       |[(ws1 & ws2 & Hw & Hj & Hcl & ->)
       |[(ws1 & ws2 & s & l & links & r & Hw & Hp & ->)
       |[(ws1 & ws2 & s & l & links & Hw & Hp & ->)
       |[(ws1 & ws2 & r & s & links & Hw & Hroom & ->)
       |[(ws1 & ws2 & s & Hw & ->)
       |(r & rest & Hcl & Hch & ->)]]]]]]]];
    cbn [unsent jobs resultsChan results workers setWorkers];
    try rewrite Hw in Hnd, Hown; try rewrite Hw;
    rewrite ?Forall_app, ?Forall_cons_iff in *; cbn [holdsOwn] in *;
    rewrite ?flat_map_app in *; cbn [flat_map busy owed app] in *.
  - (* enqueue *)
    rewrite Hu in *. rewrite <- !(app_assoc (jobs p)). cbn [app flat_map].
    rewrite app_nil_r, <- !app_assoc. now repeat split.
  - (* close *)
    rewrite Hu in *. now repeat split.
  - (* receive *)
    rewrite Hj in *. cbn [app flat_map] in *.
    split; [|split; [|tauto]].
    + do 2 f_equal. change (sentFor w s (linksOf w s)) with (siteVerdicts w s).
      destruct (string_dec s site) as [->|Hne].
      * assert (Hq : flat_map (fun g => rowsOf site (owed w g)) ws2 = []).
        { apply rowsOf_elsewhere; [tauto|]. apply NoDup_remove_2 in Hnd.
          rewrite !in_app_iff in Hnd. tauto. }
        rewrite Hq, !app_nil_r, <- !app_assoc. reflexivity.
      * assert (Hz : rowsOf site (siteVerdicts w s) = []).
        { now apply rowsOf_sentFor_other. }
        rewrite !Hz. reflexivity.
    + eapply Permutation_NoDup; [|exact Hnd].
      rewrite <- !app_assoc. apply Permutation_app_head. cbn [app].
      symmetry. apply Permutation_middle.
  - (* leave *)
    split; [reflexivity | split; [exact Hnd | tauto]].
  - (* probe, a verdict to send *)
    apply probeLink_sends in Hp as Hsrc. split; [|split; [exact Hnd | tauto]].
    unfold sentFor at 2. cbn [flat_map]. rewrite Hp. reflexivity.
  - (* probe, nothing to send *)
    split; [|split; [exact Hnd | tauto]].
    unfold sentFor at 2. cbn [flat_map]. rewrite Hp. reflexivity.
  - (* send *)
    split; [|split; [exact Hnd | tauto]].
    rewrite rowsOf_app. cbn.
    destruct Hown as (Hown1 & Hr & Hown2). rewrite Hr.
    destruct (String.eqb_spec s site) as [->|Hne].
    + assert (Hq : flat_map (fun g => rowsOf site (owed w g)) ws1 = []).
      { apply rowsOf_elsewhere; [exact Hown1|]. rewrite <- app_assoc in Hnd.
        apply NoDup_remove_2 in Hnd. rewrite !in_app_iff in Hnd. tauto. }
      rewrite Hq, <- !app_assoc. reflexivity.
    + rewrite app_nil_r. reflexivity.
  - (* next *)
    split; [reflexivity | split; [|tauto]].
    rewrite <- app_assoc in Hnd. apply NoDup_remove_1 in Hnd.
    rewrite <- app_assoc. exact Hnd.
  - (* collect *)
    rewrite Hch. split; [|split; [exact Hnd | exact Hown]].
    change (r :: rest) with ([r] ++ rest).
    rewrite !rowsOf_app, <- !app_assoc. reflexivity.
Qed.

(** X11: the rows of one site stand in the report in the order of the links on
    its page, however the workers are interleaved, as long as no site is
    listed twice: a site is scanned by one worker, link after link, and the
    channel keeps the order of its sends. *)
Theorem rows_of_a_site_in_page_order w n sites rs site :
  n <> 0%nat -> NoDup sites -> In site sites ->
  reaches w (start n sites) (Collected rs) ->
  rowsOf site rs = siteVerdicts w site.
Proof.
  intros Hn Hnd Hsite Hr.
  destruct (collected_last w _ rs Hr) as (p & Hp & Hcl & Hall & Hch & Hres);
    [discriminate|].
  pose proof (reaches_sound w n sites _ _ (start_sound w n sites) Hp)
    as (_ & [Hd1 Hd2] & Hlen).
  assert (Hord : inOrder w sites p).
  { destruct (start n sites) as [p0| |] eqn:Hstart; try discriminate.
    refine (running_invariant w (inOrder w sites) (inOrder_kept w sites)
              _ _ Hp p0 p eq_refl eq_refl _).
    now apply (start_inOrder w n). }
  destruct Hord as (_ & _ & Hrows). specialize (Hrows site). unfold rowsAhead in Hrows.
  assert (Hj : jobs p = []).
  { destruct (workers p) as [|g ws] eqn:Hw; [cbn in Hlen; congruence|].
    inversion Hall as [|? ? Hg _]; subst g. apply Hd2. now left. }
  rewrite Hres, Hch, Hj, (Hd1 Hcl), (rowsOf_finished w site _ Hall) in Hrows.
  cbn in Hrows. rewrite app_nil_r in Hrows.
  rewrite Hrows. now apply rowsOf_sites.
Qed.


(** *** The rows of the report *)

Lemma sentFor_row w site links r :
  In r (sentFor w site links) ->
  exists l r0 sent,
    In l links /\ detectService l w = (Returns r0, sent) /\ Type_ r0 <> "unknown"
    /\ r = {| Type_ := Type_ r0; Status := Status r0; URL := URL r0; SourcePage := site |}.
Proof.
  unfold sentFor. rewrite in_flat_map. intros (l & Hl & Hin).
  unfold probeLink, bind in Hin.
  destruct (detectService l w) as [[r0|] sent] eqn:Hrun; [|cbn in Hin; contradiction].
  cbn [fst Type_] in Hin.
  destruct (String.eqb_spec (Type_ r0) "unknown") as [Heq|Hne];
    cbn in Hin; [contradiction|].
  destruct Hin as [<-|[]]. now exists l, r0, sent.
Qed.

Lemma collected_row w n sites rs r :
  reaches w (start n sites) (Collected rs) -> In r rs ->
  exists l r0 sent,
    In (SourcePage r) sites /\ In l (linksOf w (SourcePage r))
    /\ detectService l w = (Returns r0, sent) /\ Type_ r0 <> "unknown"
    /\ r = {| Type_ := Type_ r0; Status := Status r0; URL := URL r0;
              SourcePage := SourcePage r |}.
Proof.
  intros Hr Hin. apply (collected_sound w n sites rs Hr) in Hin.
  destruct (expected_sends w sites r Hin) as (_ & Hsite & Hrow).
  destruct (sentFor_row w _ _ r Hrow) as (l & r0 & sent & Hl & Hrun & Hty & Heq).
  exists l, r0, sent. now repeat split.
Qed.

Lemma takeover_kind r :
  verdictShape r -> Status r = "possible_takeover" -> In (Type_ r) signatureKinds.
Proof.
  intros [[Hk _]|[[_ Hs]|[[_ Hs]|[[_ Hs]|[_ Hs]]]]] Hst; [exact Hk| | | |];
    rewrite Hst in Hs; cbn in Hs.
  - destruct Hs as [[H|[H|[H|[H|[]]]]]|[code H]]; discriminate H.
  - discriminate Hs.
  - destruct Hs as [H|[H|[H|[H|[]]]]]; discriminate H.
  - discriminate Hs.
Qed.

(** X9: every row of a finished report is about a link found on the page of
    one of the scanned sites, carries that link and that site, is of a
    known kind, and pairs its kind with one of the statuses of that kind. *)
Theorem report_rows_well_formed w n sites rs r :
  reaches w (start n sites) (Collected rs) -> In r rs ->
  In (SourcePage r) sites /\ In (URL r) (linksOf w (SourcePage r))
  /\ Type_ r <> "unknown" /\ verdictShape r.
Proof.
  intros Hr Hin.
  destruct (collected_row w n sites rs r Hr Hin)
    as (l & r0 & sent & Hsite & Hl & Hrun & Hty & Heq).
  destruct (detectService_shape l w) as [_ Hshape].
  destruct (Hshape r0 sent Hrun) as (Hurl & _ & Hsh).
  rewrite Heq. cbn [SourcePage URL Type_]. rewrite Hurl.
  repeat split; assumption.
Qed.

(** X10: the lines of [takeovers.txt] come from the probers that read a page
    for a placeholder text: each line names a link of a scanned site and
    that site, and its row is of one of the eight hosting kinds, never a
    GitHub repository, user or gist and never a Chrome extension. *)
Theorem takeovers_come_from_signature_probers w n sites rs line :
  reaches w (start n sites) (Collected rs) -> In line (takeoverLines rs) ->
  exists r, In r rs
    /\ line = (URL r ++ " (found in: " ++ SourcePage r ++ ")")%string
    /\ Status r = "possible_takeover" /\ In (Type_ r) signatureKinds
    /\ In (SourcePage r) sites /\ In (URL r) (linksOf w (SourcePage r)).
Proof.
  intros Hr Hline. unfold takeoverLines in Hline.
  apply in_map_iff in Hline. destruct Hline as (r & <- & Hf).
  apply filter_In in Hf. destruct Hf as [Hin Hst]. apply String.eqb_eq in Hst.
  destruct (collected_row w n sites rs r Hr Hin)
    as (l & r0 & sent & Hsite & Hl & Hrun & Hty & Heq).
  destruct (detectService_shape l w) as [_ Hshape].
  destruct (Hshape r0 sent Hrun) as (Hurl & _ & Hsh).
  exists r. repeat split; try assumption.
  - apply takeover_kind; [|exact Hst].
    rewrite Heq. unfold verdictShape in *. cbn [Type_ Status]. exact Hsh.
  - rewrite Heq at 1. cbn [URL]. rewrite Hurl. exact Hl.
Qed.


(** *** Where the credential goes *)

Ltac plain_prober :=
  intros link w; unfold bind; rewrite httpClient_Get_run;
  destruct (url_Parse link) as [u|];
  [destruct (transport w _) as [resp|]|]; unfold readBody, ret; cbn [app];
  repeat match goal with |- context [if ?c then _ else _] => destruct c end;
  cbn [snd]; repeat constructor.

Lemma checkS3_plain : forall link w, plain (snd (checkS3 link w)).
Proof. unfold checkS3. plain_prober. Qed.

Lemma checkHeroku_plain : forall link w, plain (snd (checkHeroku link w)).
Proof. unfold checkHeroku. plain_prober. Qed.

Lemma checkVercel_plain : forall link w, plain (snd (checkVercel link w)).
Proof. unfold checkVercel. plain_prober. Qed.

Lemma checkNetlify_plain : forall link w, plain (snd (checkNetlify link w)).
Proof. unfold checkNetlify. plain_prober. Qed.

Lemma checkWix_plain : forall link w, plain (snd (checkWix link w)).
Proof. unfold checkWix. plain_prober. Qed.

Lemma checkTumblr_plain : forall link w, plain (snd (checkTumblr link w)).
Proof. unfold checkTumblr. plain_prober. Qed.

Lemma checkShopify_plain : forall link w, plain (snd (checkShopify link w)).
Proof. unfold checkShopify. plain_prober. Qed.

Lemma checkChromeExtension_plain : forall link w, plain (snd (checkChromeExtension link w)).
Proof.
  intros link w. unfold checkChromeExtension.
  destruct (url_Parse link) as [u|]; [|constructor].
  destruct (strings.Split (strings.Trim (url.Path u) "/") "/") as [|p [|q rest]] eqn:E;
    cbn [List.length Nat.ltb Nat.leb]; try constructor.
  unfold at_index.
  destruct (nth_error (p :: q :: rest) (S (S (List.length rest)) - 1)) as [extID|] eqn:Hid.
  - rewrite bind_ret. unfold bind. rewrite httpClient_Get_run.
    destruct (url_Parse _) as [u'|];
      [destruct (transport w _) as [resp|]; [destruct (_ || _)|]|];
      unfold readBody, ret; cbn [app snd]; repeat constructor.
  - constructor.
Qed.

Lemma detectService_plain link w :
  strings.Contains link "github.com" = false ->
  strings.Contains link "github.io" = false ->
  plain (snd (detectService link w)).
Proof.
  intros Hcom Hio. unfold detectService. rewrite forge_patterns, Hcom, Hio. cbn [orb].
  destruct (strings.Contains link ".s3.amazonaws.com"); [apply checkS3_plain|].
  destruct (strings.Contains link "herokuapp.com"); [apply checkHeroku_plain|].
  destruct (strings.Contains link ".vercel.app"); [apply checkVercel_plain|].
  destruct (strings.Contains link ".netlify.app"); [apply checkNetlify_plain|].
  destruct (strings.Contains link "chrome.google.com/webstore/detail/");
    [apply checkChromeExtension_plain|].
  destruct (strings.Contains link ".wixsite.com"); [apply checkWix_plain|].
  destruct (strings.Contains link ".tumblr.com"); [apply checkTumblr_plain|].
  destruct (strings.Contains link ".myshopify.com"); [apply checkShopify_plain|].
  constructor.
Qed.

(** Off the pages domain the code-forge prober reads no index out of
    range, and what it asks the metadata API is fixed by the path. *)
Lemma checkGitHub_target link parsed w :
  url_Parse link = Some parsed ->
  strings.Contains link "github.io" = false ->
  let parts := strings.Split (strings.Trim (url.Path parsed) "/") "/" in
  checkGitHub link w
  = if strings.Contains link "gist.github.com" && (2 <=? List.length parts)%nat then
      githubAPIRequest "gist" ("https://api.github.com/gists/" ++ last parts "") link w
    else if (2 <=? List.length parts)%nat then
      githubAPIRequest "repo"
        ("https://api.github.com/repos/" ++ nth 0 parts "" ++ "/" ++ nth 1 parts "") link w
    else if negb (String.eqb (strings.Trim (url.Path parsed) "/") "") then
      githubAPIRequest "user"
        ("https://api.github.com/users/" ++ strings.Trim (url.Path parsed) "/") link w
    else (Returns {| Type_ := "github"; Status := "invalid_url"; URL := link;
                     SourcePage := "" |}, []).
Proof.
  intros Hp Hio parts. unfold checkGitHub. rewrite Hp, Hio. fold parts.
  pose proof (Split_nonempty (strings.Trim (url.Path parsed) "/") "/") as Hne. fold parts in Hne.
  destruct (strings.Contains link "gist.github.com" && (2 <=? List.length parts)%nat) eqn:Hg.
  - unfold at_index. rewrite (nth_error_last "" parts Hne). now rewrite bind_ret.
  - destruct parts as [|p [|q rest]] eqn:E; [contradiction| |].
    + apply Split_single in E. subst p. cbn [List.length Nat.leb Nat.eqb nth andb].
      destruct (negb _); [|reflexivity].
      unfold at_index. cbn [nth_error]. now rewrite bind_ret.
    + cbn [List.length Nat.leb nth]. unfold at_index. cbn [nth_error].
      now rewrite !bind_ret.
Qed.

(** X8: the credential leaves the program only towards the metadata API: of
    all the requests of link extraction and of the dispatcher, whatever the
    site and the link, the only ones that carry a header are built from an
    address that starts with [https://api.github.com/]; they carry the
    client tag, and the token when one is set. The pages of the sites and
    of the probed links are fetched without any header.  (This is about
    the requests the program hands to the HTTP client; what the client
    does on a redirect is part of [transport].) *)
Theorem token_goes_only_to_the_api w site link req :
  In req (snd (extractLinks site w) ++ snd (detectService link w)) ->
  http.Headers req <> [] ->
  exists api u,
    strings.HasPrefix api "https://api.github.com/" = true
    /\ url_Parse api = Some u
    /\ http.Method req = "GET" /\ http.URL req = http.URL (http.newRequest "GET" u)
    /\ http.Headers req
       = if String.eqb (githubToken w) ""
         then [("User-Agent", "Takeover-Scanner")]
         else [("Authorization", ("token " ++ githubToken w)%string);
               ("User-Agent", "Takeover-Scanner")].
Proof.
  intros Hin Hhdr. apply in_app_or in Hin.
  assert (Hplain : forall sent, plain sent -> In req sent -> False).
  { intros sent Hpl Hreq. unfold plain in Hpl. rewrite Forall_forall in Hpl.
    apply Hhdr. now apply Hpl. }
  assert (Hget : forall target, plain (snd (httpClient_Get target w))).
  { intros target. rewrite httpClient_Get_run.
    destruct (url_Parse target); cbn [snd]; repeat constructor. }
  destruct Hin as [Hin|Hin].
  { exfalso. apply (Hplain (snd (httpClient_Get site w)) (Hget site)).
    revert Hin. unfold extractLinks, bind.
    destruct (httpClient_Get site w) as [[[resp|]|] sent]; unfold ret; cbn [snd];
      rewrite ?app_nil_r; auto. }
  destruct (strings.Contains link "github.com" || strings.Contains link "github.io") eqn:Hf.
  2: { apply orb_false_elim in Hf. destruct Hf as [Hcom Hio].
       destruct (Hplain _ (detectService_plain link w Hcom Hio) Hin). }
  rewrite (detectService_forge link Hf w) in Hin.
  destruct (url_Parse link) as [parsed|] eqn:Hp;
    [|rewrite (checkGitHub_panics_unparsed link w Hp) in Hin; destruct Hin].
  destruct (strings.Contains link "github.io") eqn:Hio.
  { exfalso. apply (Hplain (snd (httpClient_Get link w)) (Hget link)).
    revert Hin. unfold checkGitHub. rewrite Hp, Hio. unfold bind.
    destruct (httpClient_Get link w) as [[[resp|]|] sent]; unfold ret, readBody; cbn [snd];
      repeat match goal with |- context [if ?c then _ else _] => destruct c end;
      cbn [snd]; rewrite ?app_nil_r; auto. }
  rewrite (checkGitHub_target link parsed w Hp Hio) in Hin.
  assert (Hapi : forall kind api,
             strings.HasPrefix api "https://api.github.com/" = true ->
             In req (snd (githubAPIRequest kind api link w)) ->
             exists api u,
               strings.HasPrefix api "https://api.github.com/" = true
               /\ url_Parse api = Some u
               /\ http.Method req = "GET" /\ http.URL req = http.URL (http.newRequest "GET" u)
               /\ http.Headers req
                  = if String.eqb (githubToken w) ""
                    then [("User-Agent", "Takeover-Scanner")]
                    else [("Authorization", ("token " ++ githubToken w)%string);
                          ("User-Agent", "Takeover-Scanner")]).
  { intros kind api Hpre Hreq. destruct (url_Parse api) as [u|] eqn:Hu;
      [|rewrite (githubAPIRequest_panics kind api link w Hu) in Hreq; destruct Hreq].
    destruct (githubAPIRequest_run kind api link w _ (NewRequest_parsed "GET" api u Hu))
      as (req' & r & Hrun & Hrq & _).
    rewrite Hrun in Hreq. destruct Hreq as [<-|[]]. exists api, u.
    split; [exact Hpre|]. split; [exact Hu|]. rewrite Hrq.
    destruct (String.eqb (githubToken w) ""); cbn; repeat split; reflexivity. }
  destruct (strings.Contains link "gist.github.com" && _);
    [apply Hapi in Hin; [exact Hin | reflexivity]|].
  destruct (2 <=? _)%nat; [apply Hapi in Hin; [exact Hin | reflexivity]|].
  destruct (negb _); [apply Hapi in Hin; [exact Hin | reflexivity] | destruct Hin].
Qed.

(** X7: how a link of the code forge, off its pages domain, is looked up: a
    gist by the last segment of its path, anything else with two segments
    or more as the repository its first two segments name, whatever
    follows them, and a single segment as a user; an empty path is an
    [invalid_url] and asks nothing. *)
Theorem forge_links_ask_the_api link parsed w :
  url_Parse link = Some parsed ->
  strings.Contains link "github.io" = false ->
  let path := strings.Trim (url.Path parsed) "/" in
  let parts := strings.Split path "/" in
  (path = "" ->
   checkGitHub link w
   = (Returns {| Type_ := "github"; Status := "invalid_url"; URL := link;
                 SourcePage := "" |}, []))
  /\ (path <> "" -> (List.length parts < 2)%nat ->
      checkGitHub link w
      = githubAPIRequest "user" ("https://api.github.com/users/" ++ path) link w)
  /\ ((2 <= List.length parts)%nat -> strings.Contains link "gist.github.com" = true ->
      checkGitHub link w
      = githubAPIRequest "gist" ("https://api.github.com/gists/" ++ last parts "") link w)
  /\ ((2 <= List.length parts)%nat -> strings.Contains link "gist.github.com" = false ->
      checkGitHub link w
      = githubAPIRequest "repo"
          ("https://api.github.com/repos/" ++ nth 0 parts "" ++ "/" ++ nth 1 parts "") link w).
Proof.
  intros Hp Hio path parts. rewrite (checkGitHub_target link parsed w Hp Hio).
  fold path. fold parts.
  repeat split.
  - intros Hempty.
    assert (Hparts : parts = [""]).
    { unfold parts. rewrite Hempty. reflexivity. }
    rewrite Hparts, Hempty. cbn [List.length Nat.leb]. rewrite andb_false_r. reflexivity.
  - intros Hne Hlen. apply Nat.leb_gt in Hlen. rewrite Hlen, andb_false_r.
    destruct (String.eqb_spec path "") as [Heq|_]; [contradiction | reflexivity].
  - intros Hlen Hg. apply Nat.leb_le in Hlen. rewrite Hlen, Hg. reflexivity.
  - intros Hlen Hg. apply Nat.leb_le in Hlen. rewrite Hlen, Hg. reflexivity.
Qed.


(** *** Which links crash the scanner *)

Lemma githubAPIRequest_panics_iff entityType api link w :
  fst (githubAPIRequest entityType api link w) = Panics <-> url_Parse api = None.
Proof.
  split.
  - intros Hpanic. destruct (url_Parse api) as [u|] eqn:Hu; [|reflexivity].
    destruct (githubAPIRequest_run entityType api link w _ (NewRequest_parsed "GET" api u Hu))
      as (req & r & Hrun & _).
    rewrite Hrun in Hpanic. discriminate Hpanic.
  - intros Hu. now rewrite (githubAPIRequest_panics entityType api link w Hu).
Qed.

Lemma pages_probe_returns link parsed w :
  url_Parse link = Some parsed -> strings.Contains link "github.io" = true ->
  fst (checkGitHub link w) <> Panics.
Proof.
  intros Hp Hio. unfold checkGitHub. rewrite Hp, Hio. unfold bind.
  rewrite httpClient_Get_run, Hp. unfold readBody.
  destruct (transport w _) as [resp|];
    [destruct (strings.Contains (http.Body resp) _)|]; discriminate.
Qed.

(** X16: the links that crash the scanner, exactly: the dispatcher panics on
    a link if and only if the link holds [github.com] or [github.io] and
    either does not parse or, off the pages domain and with a path that is
    not empty, gives a metadata-API address that does not parse.  Neither
    the network nor the token has a say in it. *)
Theorem dispatcher_panics_exactly_when link w :
  fst (detectService link w) = Panics
  <-> (strings.Contains link "github.com" = true \/ strings.Contains link "github.io" = true)
      /\ match url_Parse link with
         | None => True
         | Some parsed =>
             let path := strings.Trim (url.Path parsed) "/" in
             let parts := strings.Split path "/" in
             strings.Contains link "github.io" = false
             /\ path <> ""
             /\ url_Parse
                  (if strings.Contains link "gist.github.com" && (2 <=? List.length parts)%nat
                   then "https://api.github.com/gists/" ++ last parts ""
                   else if (2 <=? List.length parts)%nat
                   then "https://api.github.com/repos/" ++ nth 0 parts "" ++ "/" ++ nth 1 parts ""
                   else "https://api.github.com/users/" ++ path)%string
                = None
         end.
Proof.
  destruct (strings.Contains link "github.com" || strings.Contains link "github.io") eqn:Hf.
  2: { apply orb_false_elim in Hf. destruct Hf as [Hcom Hio]. split.
       - intros Hpanic. exfalso.
         destruct (detectService_table link Hcom Hio)
           as [(check & statuses & Hwb & _ & _ & Hrun)|[_ Hrun]]; rewrite Hrun in Hpanic.
         + destruct (Hwb link w) as (r & sent & Hr & _). rewrite Hr in Hpanic.
           discriminate Hpanic.
         + discriminate Hpanic.
       - intros [[H|H] _]; congruence. }
  rewrite (detectService_forge link Hf w).
  apply orb_prop in Hf.
  destruct (url_Parse link) as [parsed|] eqn:Hp.
  2: { rewrite (checkGitHub_panics_unparsed link w Hp). now split. }
  destruct (strings.Contains link "github.io") eqn:Hio.
  { split.
    - intros Hpanic. now destruct (pages_probe_returns link parsed w Hp Hio).
    - intros [_ [H _]]. discriminate H. }
  rewrite (checkGitHub_target link parsed w Hp Hio). cbv zeta.
  set (path := strings.Trim (url.Path parsed) "/").
  set (parts := strings.Split path "/").
  assert (Hshort : path = "" -> (2 <=? List.length parts)%nat = false).
  { intros Hempty. unfold parts. rewrite Hempty. reflexivity. }
  assert (Hlong : (2 <=? List.length parts)%nat = true -> path <> "").
  { intros Hlen Hempty. rewrite (Hshort Hempty) in Hlen. discriminate Hlen. }
  destruct (strings.Contains link "gist.github.com" && (2 <=? List.length parts)%nat) eqn:Hg.
  { apply andb_prop in Hg as Hg'. destruct Hg' as [_ Hlen].
    rewrite githubAPIRequest_panics_iff. split; [|tauto].
    intros Hu. split; [exact Hf|]. split; [reflexivity|]. split; [now apply Hlong | exact Hu]. }
  destruct (2 <=? List.length parts)%nat eqn:Hlen.
  { rewrite githubAPIRequest_panics_iff. split; [|tauto].
    intros Hu. split; [exact Hf|]. split; [reflexivity|]. split; [now apply Hlong | exact Hu]. }
  destruct (String.eqb_spec path "") as [Hempty|Hne]; cbn [negb].
  - split; [discriminate|]. intros (_ & _ & Hne & _). contradiction.
  - rewrite githubAPIRequest_panics_iff. split; [|tauto].
    intros Hu. split; [exact Hf|]. now repeat split.
Qed.

End Scanner.

(** ** The scanner on the fixture *)

Lemma fixture_panicFree :
  panicFree (lib := Fixture.library) Fixture.world Fixture.sites.
Proof.
  intros site l Hsite Hl. cbn in Hsite.
  destruct Hsite as [<-|[<-|[<-|[]]]]; vm_compute in Hl.
  - destruct Hl as [<-|[<-|[<-|[]]]]; vm_compute; discriminate.
  - destruct Hl as [<-|[]]; vm_compute; discriminate.
  - destruct Hl.
Qed.

Lemma fixture_expected :
  expected (lib := Fixture.library) Fixture.world Fixture.sites
  = [Fixture.pagesVerdict; Fixture.repoVerdict; Fixture.appVerdict].
Proof. vm_compute. reflexivity. Qed.

(** The scenarios of the probers, run on the fixture. *)
Example scenario_pages_takeover :
  fst (detectService (lib := Fixture.library) Fixture.pagesLink Fixture.world)
  = Returns {| Type_ := "github_pages"; Status := "possible_takeover";
               URL := Fixture.pagesLink; SourcePage := "" |}.
Proof. vm_compute. reflexivity. Qed.

Example scenario_heroku_takeover :
  fst (detectService (lib := Fixture.library) "https://api-target.herokuapp.com" Fixture.world)
  = Returns {| Type_ := "heroku"; Status := "possible_takeover";
               URL := "https://api-target.herokuapp.com"; SourcePage := "" |}.
Proof. vm_compute. reflexivity. Qed.

Example scenario_repo_statuses :
  map (fun code =>
         fst (detectService (lib := Fixture.library) Fixture.repoLink
                {| transport := Fixture.respond code "{}"; githubToken := "" |}))
      [404%Z; 200%Z; 403%Z; 429%Z; 502%Z]
  = map (fun status => Returns {| Type_ := "repo"; Status := status;
                                  URL := Fixture.repoLink; SourcePage := "" |})
      ["not_found"; "exists"; "rate_limited"; "rate_limited"; "error_502"].
Proof. vm_compute. reflexivity. Qed.

Example scenario_report :
  csvRows (expected (lib := Fixture.library) Fixture.world Fixture.sites)
  = [ ["Type"; "Status"; "URL"; "SourcePage"];
      ["github_pages"; "possible_takeover"; "https://foo.github.io"; "https://site-a.example/"];
      ["repo"; "not_found"; "https://github.com/acme/widgets"; "https://site-a.example/"];
      ["heroku"; "possible_takeover"; "https://api-target.herokuapp.com";
       "https://site-c.example/"] ]
  /\ takeoverLines (expected (lib := Fixture.library) Fixture.world Fixture.sites)
     = [ "https://foo.github.io (found in: https://site-a.example/)";
         "https://api-target.herokuapp.com (found in: https://site-c.example/)" ].
Proof. split; vm_compute; reflexivity. Qed.

(** C1 fails as stated: the gist link with an empty path gets the kind
    [github], not [gist]; and the gist link with one segment is looked up
    as a user, with a request sent. *)
Lemma C1_gist_without_id_counterexample :
  strings.Contains Fixture.bareGist "gist.github.com" = true
  /\ option_map (fun u => strings.Split (strings.Trim (url.Path u) "/") "/")
       (url.Parse Fixture.bareGist) = Some [""]
  /\ detectService (lib := Fixture.library) Fixture.bareGist Fixture.world
     = (Returns {| Type_ := "github"; Status := "invalid_url";
                   URL := Fixture.bareGist; SourcePage := "" |}, [])
  /\ ~ (exists r sent,
          detectService (lib := Fixture.library) Fixture.bareGist Fixture.world = (Returns r, sent)
          /\ Type_ r = "gist" /\ Status r = "invalid_url")
  /\ strings.Contains Fixture.userGist "gist.github.com" = true
  /\ option_map (fun u => strings.Split (strings.Trim (url.Path u) "/") "/")
       (url.Parse Fixture.userGist) = Some ["octocat"]
  /\ exists req,
       detectService (lib := Fixture.library) Fixture.userGist Fixture.world
       = (Returns {| Type_ := "user"; Status := "exists";
                     URL := Fixture.userGist; SourcePage := "" |}, [req])
       /\ url.Host (http.URL req) = "api.github.com"
       /\ url.Path (http.URL req) = "/users/octocat".
Proof.
  split; [vm_compute; reflexivity|]. split; [vm_compute; reflexivity|].
  split; [vm_compute; reflexivity|]. split.
  - intros (r & sent & Hrun & Hty & _). vm_compute in Hrun.
    injection Hrun as <- _. discriminate Hty.
  - split; [vm_compute; reflexivity|]. split; [vm_compute; reflexivity|].
    eexists. split; [vm_compute; reflexivity|]. split; reflexivity.
Qed.

(** The two cases of C1 on the fixture: the gist host alone, and the gist
    host with a user name. *)
Lemma C1_gist_without_id_segment_witness :
  checkGitHub (lib := Fixture.library) Fixture.bareGist Fixture.world
  = (Returns {| Type_ := "github"; Status := "invalid_url";
                URL := Fixture.bareGist; SourcePage := "" |}, [])
  /\ checkGitHub (lib := Fixture.library) Fixture.userGist Fixture.world
     = githubAPIRequest (lib := Fixture.library) "user" "https://api.github.com/users/octocat"
         Fixture.userGist Fixture.world.
Proof.
  split.
  - refine (proj1 (C1_gist_without_id_segment (lib := Fixture.library) Fixture.bareGist
                     (Fixture.parsed Fixture.bareGist) Fixture.world _ _ _ _) _).
    + vm_compute; reflexivity.
    + vm_compute; reflexivity.
    + vm_compute; reflexivity.
    + vm_compute; lia.
    + vm_compute; reflexivity.
  - refine (proj2 (C1_gist_without_id_segment (lib := Fixture.library) Fixture.userGist
                     (Fixture.parsed Fixture.userGist) Fixture.world _ _ _ _) _).
    + vm_compute; reflexivity.
    + vm_compute; reflexivity.
    + vm_compute; reflexivity.
    + vm_compute; lia.
    + vm_compute; discriminate.
Defined.

(** C2 on a Pages link with an owner and a repository in its path. *)
Lemma C2_pages_before_repo_witness :
  exists r sent,
    detectService (lib := Fixture.library) Fixture.deepPagesLink Fixture.world
    = (Returns r, sent)
    /\ Type_ r = "github_pages" /\ Type_ r <> "repo".
Proof.
  destruct (C2_pages_before_repo (lib := Fixture.library) Fixture.deepPagesLink Fixture.world)
    as [Hreturns Hkind].
  - vm_compute; reflexivity.
  - destruct (Hreturns (Fixture.parsed Fixture.deepPagesLink)) as (r & sent & Hrun & _).
    + vm_compute; reflexivity.
    + exists r, sent. split; [exact Hrun | exact (Hkind r sent Hrun)].
Defined.

(** C3 on the deleted repository of the fixture: the API answers 404. *)
Lemma C3_api_status_mapping_witness :
  exists req r,
    githubAPIRequest (lib := Fixture.library) "repo" Fixture.repoAPI Fixture.repoLink Fixture.world
    = (Returns r, [req])
    /\ Fixture.network req <> None /\ Status r = "not_found".
Proof.
  destruct (C3_api_status_mapping (lib := Fixture.library) "repo" Fixture.repoAPI Fixture.repoLink Fixture.world
              (http.newRequest "GET" (Fixture.parsed Fixture.repoAPI)))
    as (req & r & Hrun & _ & Hurl & _ & _ & _ & Hresp).
  - vm_compute; reflexivity.
  - exists req, r. split; [exact Hrun|].
    assert (Hnet : Fixture.network req
                   = Some {| http.StatusCode := 404; http.Body := "{}";
                             http.Request_URL := http.URL req |}).
    { unfold Fixture.network, Fixture.respond. rewrite !Hurl. vm_compute. reflexivity. }
    split; [rewrite Hnet; discriminate|].
    apply (Hresp _ Hnet). reflexivity.
Defined.

(** C7 on the fixture, without and with a credential. *)
Lemma C7_credential_noninterference_witness :
  githubToken Fixture.world <> githubToken Fixture.worldWithToken
  /\ fst (githubAPIRequest (lib := Fixture.library) "repo" Fixture.repoAPI Fixture.repoLink Fixture.world)
     = fst (githubAPIRequest (lib := Fixture.library) "repo" Fixture.repoAPI Fixture.repoLink
              Fixture.worldWithToken).
Proof.
  split; [discriminate|].
  refine (proj1 (C7_credential_noninterference (lib := Fixture.library) "repo" Fixture.repoAPI
                   Fixture.repoLink Fixture.world Fixture.worldWithToken _)).
  intros req1 req2 H1 H2. vm_compute in H1, H2.
  injection H1 as <-. injection H2 as <-. vm_compute. reflexivity.
Defined.

(** C8 on the unclaimed Pages host of the fixture. *)
Lemma C8_pages_probe_witness :
  exists req r,
    checkGitHub (lib := Fixture.library) Fixture.pagesLink Fixture.world = (Returns r, [req])
    /\ url.Host (http.URL req) = "foo.github.io"
    /\ Type_ r = "github_pages" /\ Status r = "possible_takeover".
Proof.
  destruct (C8_pages_probe (lib := Fixture.library) Fixture.pagesLink
              (Fixture.parsed Fixture.pagesLink) Fixture.world)
    as (req & r & Hreq & _ & _ & Hrun & Hty & _ & _ & Hresp).
  - vm_compute; reflexivity.
  - vm_compute; reflexivity.
  - vm_compute in Hreq. injection Hreq as <-.
    eexists. exists r. split; [exact Hrun|]. split; [reflexivity|]. split; [exact Hty|].
    refine (proj2 (proj1 (Hresp {| http.StatusCode := 404; http.Body := Fixture.pagesGone;
                                   http.Request_URL := Fixture.parsed Fixture.pagesLink |} _)) _).
    + vm_compute. reflexivity.
    + vm_compute. reflexivity.
Defined.

(** C4 on the fixture: a link of no known service, and the finished run. *)
Lemma C4_unknown_never_probed_nor_reported_witness :
  (forall site, fst (probeLink (lib := Fixture.library) site Fixture.otherLink Fixture.world)
                = Returns None)
  /\ Forall (fun r => Type_ r <> "unknown")
       (expected (lib := Fixture.library) Fixture.world Fixture.sites).
Proof.
  destruct (C4_unknown_never_probed_nor_reported (lib := Fixture.library) Fixture.world)
    as [Hprobe Hreport].
  split.
  - refine (proj2 (proj2 (Hprobe Fixture.otherLink
                            {| Type_ := "unknown"; Status := "skipped";
                               URL := Fixture.otherLink; SourcePage := "" |} [] _ _))).
    + vm_compute; reflexivity.
    + reflexivity.
  - refine (proj1 (Hreport maxWorkers Fixture.sites _ _)).
    apply sequential_run; [discriminate | exact fixture_panicFree].
Defined.

(** A run with fifty workers in which a second worker overtakes the
    first: the verdict of the second site is collected before those of the
    first. *)
Lemma fixture_overtaking_run :
  reaches (lib := Fixture.library) Fixture.world (start 50 Fixture.sites)
    (Collected [Fixture.appVerdict; Fixture.pagesVerdict; Fixture.repoVerdict]).
Proof.
  pose (w := Fixture.world).
  pose (a := "https://site-a.example/"). pose (c := "https://site-c.example/").
  pose (d := "https://down.example/").
  pose (la := [Fixture.pagesLink; Fixture.repoLink; Fixture.otherLink]).
  pose (lc := "https://api-target.herokuapp.com").
  assert (La : fst (extractLinks (lib := Fixture.library) a w)
               = Returns la)
    by (vm_compute; reflexivity).
  assert (Lc : fst (extractLinks (lib := Fixture.library) c w)
               = Returns [lc])
    by (vm_compute; reflexivity).
  assert (Ld : fst (extractLinks (lib := Fixture.library) d w) = Returns [])
    by (vm_compute; reflexivity).
  assert (Pc : fst (probeLink (lib := Fixture.library) c lc w)
               = Returns (Some Fixture.appVerdict))
    by (vm_compute; reflexivity).
  assert (Sa : sentFor (lib := Fixture.library) w a la
               = [Fixture.pagesVerdict; Fixture.repoVerdict])
    by (vm_compute; reflexivity).
  change (reaches (lib := Fixture.library) w (start 50 [a; c; d])
            (Collected [Fixture.appVerdict; Fixture.pagesVerdict; Fixture.repoVerdict])).
  unfold start.
  eapply reaches_trans; [apply enqueue_all|]. cbn [app].
  (* the first worker receives the first site *)
  eapply reaches_step;
    [apply (step_receive w _ [] (repeat Waiting 49) a [c; d]); reflexivity|].
  rewrite La. cbn [unsent closed jobs workers resultsChan results app].
  (* the second worker receives the second site, probes its link, sends *)
  eapply reaches_step;
    [apply (step_receive w _ [Scanning a la] (repeat Waiting 48) c [d]); reflexivity|].
  rewrite Lc. cbn [unsent closed jobs workers resultsChan results app].
  eapply reaches_step;
    [apply (step_probe w _ [Scanning a la] (repeat Waiting 48) c lc []); reflexivity|].
  rewrite Pc. cbn [unsent closed jobs workers resultsChan results app setWorkers].
  eapply reaches_step;
    [apply (step_send w _ [Scanning a la] (repeat Waiting 48) Fixture.appVerdict c []);
     [reflexivity | cbn; unfold resultsCap; lia]|].
  cbn [unsent closed jobs workers resultsChan results app].
  eapply reaches_step; [apply (step_collect w _ Fixture.appVerdict []); reflexivity|].
  cbn [unsent closed jobs workers resultsChan results app].
  eapply reaches_step;
    [apply (step_next w _ [Scanning a la] (repeat Waiting 48) c); reflexivity|].
  cbn [unsent closed jobs workers resultsChan results app setWorkers].
  (* it goes on to the unreachable site, which has no links *)
  eapply reaches_step;
    [apply (step_receive w _ [Scanning a la] (repeat Waiting 48) d []); reflexivity|].
  rewrite Ld. cbn [unsent closed jobs workers resultsChan results app].
  eapply reaches_step;
    [apply (step_next w _ [Scanning a la] (repeat Waiting 48) d); reflexivity|].
  cbn [unsent closed jobs workers resultsChan results app setWorkers].
  (* only now does the first worker probe its links *)
  eapply reaches_trans.
  { apply (scan_links (lib := Fixture.library) w a (Waiting :: repeat Waiting 48) []).
    intros l Hl. destruct Hl as [<-|[<-|[<-|[]]]]; vm_compute; discriminate. }
  rewrite Sa. cbn [app].
  eapply reaches_step;
    [apply (step_next w _ [] (Waiting :: repeat Waiting 48) a); reflexivity|].
  cbn [unsent closed jobs workers resultsChan results app setWorkers].
  eapply reaches_trans; [apply (leave_all w _ 50 0)|]. cbn [Nat.add].
  apply reaches_one.
  apply (step_done w {| unsent := []; closed := true; jobs := [];
                        workers := repeat Finished 50; resultsChan := [];
                        results := [Fixture.appVerdict; Fixture.pagesVerdict;
                                    Fixture.repoVerdict] |}); try reflexivity.
  cbn [workers]. apply Forall_forall. intros g Hg. now apply repeat_spec in Hg.
Qed.

(** The hypotheses of C9 hold of the fixture: one worker collects the
    verdicts in the order of the sites, fifty workers may collect them in
    another order, and the rows are the same. *)
Lemma C9_one_worker_or_fifty_witness :
  reaches (lib := Fixture.library) Fixture.world (start 1 Fixture.sites)
    (Collected [Fixture.pagesVerdict; Fixture.repoVerdict; Fixture.appVerdict])
  /\ reaches (lib := Fixture.library) Fixture.world (start 50 Fixture.sites)
       (Collected [Fixture.appVerdict; Fixture.pagesVerdict; Fixture.repoVerdict])
  /\ Permutation [Fixture.pagesVerdict; Fixture.repoVerdict; Fixture.appVerdict]
       [Fixture.appVerdict; Fixture.pagesVerdict; Fixture.repoVerdict].
Proof.
  assert (H1 : reaches (lib := Fixture.library) Fixture.world (start 1 Fixture.sites)
                 (Collected [Fixture.pagesVerdict; Fixture.repoVerdict; Fixture.appVerdict])).
  { rewrite <- fixture_expected.
    apply sequential_run; [discriminate | exact fixture_panicFree]. }
  split; [exact H1|]. split; [exact fixture_overtaking_run|].
  exact (proj1 (C9_one_worker_or_fifty (lib := Fixture.library) Fixture.world Fixture.sites
                  _ _ H1 fixture_overtaking_run)).
Defined.

(** C10 on the unreachable site of the fixture. *)
Lemma C10_failed_site_fetch_is_silent_witness :
  fst (extractLinks (lib := Fixture.library) Fixture.downSite Fixture.world) = Returns []
  /\ siteVerdicts (lib := Fixture.library) Fixture.world Fixture.downSite = []
  /\ forall r, In r [Fixture.appVerdict; Fixture.pagesVerdict; Fixture.repoVerdict] ->
               SourcePage r <> Fixture.downSite.
Proof.
  destruct (C10_failed_site_fetch_is_silent (lib := Fixture.library) Fixture.world
              Fixture.downSite) as (Hnone & Hsv & _ & _ & Hreport).
  - vm_compute; reflexivity.
  - split; [exact Hnone|]. split; [exact Hsv|].
    exact (Hreport 50%nat Fixture.sites _ fixture_overtaking_run).
Defined.

(** C5 fails on the code: a link that parses, found on a page, makes the
    prober panic (its path unescapes to a text [http.NewRequest] rejects, and
    the nil request is used), as does a link that does not parse (the nil
    URL is used); the panic ends the run. *)
Theorem C5_probing_path_panics :
  (exists u, url.Parse Fixture.oddLink = Some u /\ url.Path u = "/%zz")
  /\ url.Parse "https://api.github.com/users/%zz" = None
  /\ (forall w, detectService (lib := Fixture.library) Fixture.oddLink w = (Panics, []))
  /\ url.Parse Fixture.brokenLink = None
  /\ (forall w, detectService (lib := Fixture.library) Fixture.brokenLink w = (Panics, []))
  /\ linksOf (lib := Fixture.library) Fixture.world Fixture.oddSite = [Fixture.oddLink]
  /\ reaches (lib := Fixture.library) Fixture.world (start maxWorkers [Fixture.oddSite]) Crashed.
Proof.
  split; [eexists; split; vm_compute; reflexivity|].
  split; [vm_compute; reflexivity|].
  split; [intros w; vm_compute; reflexivity|].
  split; [vm_compute; reflexivity|].
  split; [intros w; vm_compute; reflexivity|].
  split; [vm_compute; reflexivity|].
  apply (crash_run (lib := Fixture.library) Fixture.world 49 Fixture.oddSite [] Fixture.oddLink).
  - vm_compute; reflexivity.
  - vm_compute; reflexivity.
Qed.

(** C6 holds in part: whether the dispatcher returns for a link, and the
    kind it then assigns, is fixed by the text of the link, whatever the
    responses and the credential; but it is not total: for a link that
    parses it may assign no kind at all. *)
Theorem C6_kind_fixed_by_text_but_partial :
  (forall (lib : Library) link, exists kind,
      forall w, kindOf (fst (detectService (lib := lib) link w)) = kind)
  /\ url.Parse Fixture.oddLink <> None
  /\ (forall w, kindOf (fst (detectService (lib := Fixture.library) Fixture.oddLink w)) = None).
Proof.
  split; [intros lib link; apply detectService_kind|].
  split; [vm_compute; discriminate|].
  intros w. vm_compute. reflexivity.
Qed.


(** ** The further properties on the fixture *)

(** A link with the patterns of two services goes to the first of them. *)
Lemma dispatch_first_match_outside_forge_witness :
  strings.Contains Fixture.overlapLink "herokuapp.com" = true
  /\ exists r sent,
       detectService (lib := Fixture.library) Fixture.overlapLink Fixture.world
       = (Returns r, sent)
       /\ Type_ r = "s3".
Proof.
  split; [vm_compute; reflexivity|].
  destruct (dispatch_first_match_outside_forge (lib := Fixture.library)
              Fixture.overlapLink Fixture.world)
    as (r & sent & Hrun & Hty & _).
  - vm_compute; reflexivity.
  - vm_compute; reflexivity.
  - exists r, sent. split; [exact Hrun | exact Hty].
Defined.

(** The link of the fixture that no service claims holds no pattern. *)
Lemma unknown_iff_no_pattern_witness :
  Forall (fun pattern => strings.Contains Fixture.otherLink pattern = false)
    ("github.com" :: "github.io" :: map fst serviceTable).
Proof.
  refine (proj1 (unknown_iff_no_pattern (lib := Fixture.library) Fixture.otherLink
                   Fixture.world
                   {| Type_ := "unknown"; Status := "skipped"; URL := Fixture.otherLink;
                      SourcePage := "" |} [] _) _).
  - vm_compute; reflexivity.
  - reflexivity.
Defined.

(** The same body under two status codes: the same verdict. *)
Lemma signature_probers_read_body_only_witness :
  checkS3 (lib := Fixture.library) Fixture.overlapLink (Fixture.uniform 200 "NoSuchBucket")
  = checkS3 (lib := Fixture.library) Fixture.overlapLink (Fixture.uniform 404 "NoSuchBucket").
Proof.
  refine (proj1 (signature_probers_read_body_only (lib := Fixture.library) Fixture.overlapLink
                   (Fixture.uniform 200 "NoSuchBucket") (Fixture.uniform 404 "NoSuchBucket")
                   _)).
  intros req. reflexivity.
Defined.

(** A blog that answers 404 with a page of its own. *)
Lemma tumblr_status_or_body_witness :
  exists r sent,
    checkTumblr (lib := Fixture.library) Fixture.blogLink (Fixture.uniform 404 "<h1>hello</h1>")
    = (Returns r, sent)
    /\ Status r = "possible_takeover".
Proof.
  destruct (tumblr_status_or_body (lib := Fixture.library) Fixture.blogLink
              (Fixture.parsed Fixture.blogLink) (Fixture.uniform 404 "<h1>hello</h1>")
              {| http.StatusCode := 404; http.Body := "<h1>hello</h1>";
                 http.Request_URL :=
                   http.URL (http.newRequest "GET" (Fixture.parsed Fixture.blogLink)) |})
    as (r & Hrun & _ & _ & Hiff & _).
  - vm_compute; reflexivity.
  - reflexivity.
  - exists r. eexists. split; [exact Hrun|]. apply Hiff. right. reflexivity.
Defined.

(** The fifty workers of the fixture can always finish. *)
Lemma every_run_completes_witness :
  exists rs,
    reaches (lib := Fixture.library) Fixture.world (start 50 Fixture.sites) (Collected rs)
    /\ Permutation rs (expected (lib := Fixture.library) Fixture.world Fixture.sites).
Proof.
  apply (every_run_completes (lib := Fixture.library) Fixture.world 50 Fixture.sites).
  - discriminate.
  - exact fixture_panicFree.
  - apply reaches_refl.
Defined.

(** After the first site is queued there is room for the second. *)
Lemma channels_within_capacity_witness :
  (List.length ["https://site-a.example/"] < List.length Fixture.sites)%nat.
Proof.
  refine (proj1 (proj2 (channels_within_capacity (lib := Fixture.library) Fixture.world 50
                          Fixture.sites
                          {| unsent := ["https://site-c.example/"; "https://down.example/"];
                             closed := false; jobs := ["https://site-a.example/"];
                             workers := repeat Waiting 50; resultsChan := [];
                             results := [] |} _)) _).
  - eapply reaches_step; [|apply reaches_refl].
    exact (step_enqueue (lib := Fixture.library) Fixture.world
             {| unsent := Fixture.sites; closed := false; jobs := [];
                workers := repeat Waiting 50; resultsChan := []; results := [] |}
             "https://site-a.example/" ["https://site-c.example/"; "https://down.example/"]
             eq_refl).
  - discriminate.
Defined.

(** The run of the fixture that queues one site has made one move of the
    at most sixty-seven. *)
Lemma run_length_bounded_witness :
  (1 <= 2 + 50
        + list_sum (map (fun site =>
                           3 * List.length (linksOf (lib := Fixture.library) Fixture.world site)
                           + 3)
                        Fixture.sites))%nat.
Proof.
  refine (run_length_bounded (lib := Fixture.library) Fixture.world 50 Fixture.sites 1
            (Running {| unsent := ["https://site-c.example/"; "https://down.example/"];
                        closed := false; jobs := ["https://site-a.example/"];
                        workers := repeat Waiting 50; resultsChan := [];
                        results := [] |}) _).
  eapply reachesIn_step; [|apply reachesIn_refl].
  exact (step_enqueue (lib := Fixture.library) Fixture.world
           {| unsent := Fixture.sites; closed := false; jobs := [];
              workers := repeat Waiting 50; resultsChan := []; results := [] |}
           "https://site-a.example/" ["https://site-c.example/"; "https://down.example/"]
           eq_refl).
Defined.



(** In the run where the third site overtakes the first, the rows of the
    first site still stand as on its page. *)
Lemma rows_of_a_site_in_page_order_witness :
  rowsOf "https://site-a.example/"
    [Fixture.appVerdict; Fixture.pagesVerdict; Fixture.repoVerdict]
  = [Fixture.pagesVerdict; Fixture.repoVerdict].
Proof.
  refine (rows_of_a_site_in_page_order (lib := Fixture.library) Fixture.world 50 Fixture.sites
            [Fixture.appVerdict; Fixture.pagesVerdict; Fixture.repoVerdict]
            "https://site-a.example/" _ _ _ fixture_overtaking_run).
  - discriminate.
  - repeat constructor; cbn; intuition discriminate.
  - now left.
Defined.

(** The row of the deleted app in that run. *)
Lemma report_rows_well_formed_witness :
  In (SourcePage Fixture.appVerdict) Fixture.sites
  /\ In (URL Fixture.appVerdict)
       (linksOf (lib := Fixture.library) Fixture.world (SourcePage Fixture.appVerdict))
  /\ Type_ Fixture.appVerdict <> "unknown" /\ verdictShape Fixture.appVerdict.
Proof.
  refine (report_rows_well_formed (lib := Fixture.library) Fixture.world 50 Fixture.sites
            [Fixture.appVerdict; Fixture.pagesVerdict; Fixture.repoVerdict]
            Fixture.appVerdict fixture_overtaking_run _).
  now left.
Defined.

(** The line of the unclaimed Pages host in that run. *)
Lemma takeovers_come_from_signature_probers_witness :
  exists r,
    In r [Fixture.appVerdict; Fixture.pagesVerdict; Fixture.repoVerdict]
    /\ "https://foo.github.io (found in: https://site-a.example/)"
       = (URL r ++ " (found in: " ++ SourcePage r ++ ")")%string
    /\ In (Type_ r) signatureKinds.
Proof.
  destruct (takeovers_come_from_signature_probers (lib := Fixture.library) Fixture.world 50
              Fixture.sites [Fixture.appVerdict; Fixture.pagesVerdict; Fixture.repoVerdict]
              "https://foo.github.io (found in: https://site-a.example/)"
              fixture_overtaking_run)
    as (r & Hin & Hline & _ & Hkind & _).
  - vm_compute. right. left. reflexivity.
  - exists r. now repeat split.
Defined.

(** With a token set, the request about the repository of the fixture
    carries it, and goes to the metadata API. *)
Lemma token_goes_only_to_the_api_witness :
  exists api u,
    strings.HasPrefix api "https://api.github.com/" = true
    /\ url.Parse api = Some u
    /\ http.URL (http.newRequest "GET" (Fixture.parsed Fixture.repoAPI))
       = http.URL (http.newRequest "GET" u).
Proof.
  destruct (token_goes_only_to_the_api (lib := Fixture.library) Fixture.worldWithToken
              "https://site-a.example/" Fixture.repoLink
              (http.setHeader
                 (http.setHeader (http.newRequest "GET" (Fixture.parsed Fixture.repoAPI))
                    "User-Agent" "Takeover-Scanner")
                 "Authorization" "token s3cr3t"))
    as (api & u & Hpre & Hu & _ & Hurl & _).
  - vm_compute. right. left. reflexivity.
  - vm_compute. discriminate.
  - exists api, u. split; [exact Hpre|]. split; [exact Hu | exact Hurl].
Defined.

(** An issue of a repository is looked up as the repository. *)
Lemma forge_links_ask_the_api_witness :
  checkGitHub (lib := Fixture.library) Fixture.issueLink Fixture.world
  = githubAPIRequest (lib := Fixture.library) "repo" Fixture.repoAPI Fixture.issueLink
      Fixture.world.
Proof.
  refine (proj2 (proj2 (proj2 (forge_links_ask_the_api (lib := Fixture.library)
                                 Fixture.issueLink (Fixture.parsed Fixture.issueLink)
                                 Fixture.world _ _))) _ _).
  - vm_compute; reflexivity.
  - vm_compute; reflexivity.
  - vm_compute; lia.
  - vm_compute; reflexivity.
Defined.

(** The store page that is asked for an extension link. *)
Lemma chrome_extension_probe_witness :
  exists r,
    checkChromeExtension (lib := Fixture.library) Fixture.extensionLink
      (Fixture.uniform 200 "<title>Item not found</title>")
    = (Returns r,
       [http.newRequest "GET"
          (Fixture.parsed
             "https://chrome.google.com/webstore/detail/eimadpbcbfnmbkopoojfekhnkhdbieeh")])
    /\ Status r = "not_found".
Proof.
  destruct (proj2 (proj2 (chrome_extension_probe (lib := Fixture.library)
                            Fixture.extensionLink
                            (Fixture.uniform 200 "<title>Item not found</title>"))
                     (Fixture.parsed Fixture.extensionLink) eq_refl))
    as (r & Hrun & _ & _ & Hst).
  - vm_compute; lia.
  - exists r. split; [exact Hrun | exact Hst].
Defined.


(** The address with the escaped percent sign crashes the dispatcher, on
    any network. *)
Lemma dispatcher_panics_exactly_when_witness :
  fst (detectService (lib := Fixture.library) Fixture.oddLink
         (Fixture.uniform 200 "{}")) = Panics.
Proof.
  apply (proj2 (dispatcher_panics_exactly_when (lib := Fixture.library) Fixture.oddLink
                  (Fixture.uniform 200 "{}"))).
  split; [left; vm_compute; reflexivity|].
  vm_compute. repeat split; discriminate.
Defined.
